(** * The frame-paced capture loop of [record.py]

    A shallow embedding of [record_screen] (record.py, lines 17-55) and the
    properties of its pacing loop.

    The function talks to the outside world only through library calls:
    [mss] (screen capture), [cv2.VideoWriter] (the sink), [time.time],
    [time.sleep], [datetime.now], [print] and the shared [stop_flag].  Each of
    them is a field of a [Backend] over a world type [W]; the program is a
    state-passing function over [W] that also returns the list of calls it
    made, in order.  A call that can raise returns a [reply]; an exception
    that nothing catches ends the program with [Raise].

    Times are Python floats in the source.  The program is written against
    the interface [TimeOps] (the literals and operators the source uses), so
    that everything proved without arithmetic laws holds for any number
    type; the order laws the monotonicity of the deadline needs are a class,
    [TimeLaws]; counting frames and bounding bursts is done over exact
    rationals.

    The module [Demo] embeds [scan_html_files] and [main] of demo.py in the
    same way: the directory listing, the clock, the file written and the
    [git] commands are the world, and every call is logged.

    The file has two parts: the model (the programs, their simulated worlds,
    and the vocabulary for traces and runs), then the lemmas and theorems. *)

From Stdlib Require Import ZArith QArith Lqa Lia List Bool String Ascii.

From Stdlib Require Import Strings.Byte.
From Stdlib Require Import Sorting.Sorted Sorting.Permutation.

Import ListNotations.

Local Open Scope string_scope.

Local Open Scope list_scope.

Set Implicit Arguments.

(** * The model *)

(** ** Time arithmetic, as the source uses it *)

Class TimeOps (T : Type) : Type := {
  t_one : T;                 (* the literal [1.0] *)
  t_milli : T;               (* the literal [0.001] *)
  t_of_int : Z -> T;         (* an [int] operand of a float operator *)
  t_add : T -> T -> T;       (* [+] *)
  t_sub : T -> T -> T;       (* [-] *)
  t_div : T -> T -> T;       (* [/], divisor not zero *)
  t_geb : T -> T -> bool;    (* [>=] *)
  t_gtb : T -> T -> bool     (* [>] *)
}.

#[export] Instance TimeOps_Q : TimeOps Q := {
  t_one := 1%Q;
  t_milli := (1 # 1000)%Q;
  t_of_int := inject_Z;
  t_add := Qplus;
  t_sub := Qminus;
  t_div := Qdiv;
  t_geb := fun a b => Qle_bool b a;
  t_gtb := fun a b => negb (Qle_bool a b)
}.

(** ** Images *)

(** One pixel of [np.array(sct.grab(monitor))]: four [uint8] samples in the
    order B, G, R, A. *)
Record bgra : Type := BGRA { b4 : byte; g4 : byte; r4 : byte; a4 : byte }.

(** One pixel of the frame handed to the writer: B, G, R. *)
Record bgr : Type := BGR { b3 : byte; g3 : byte; r3 : byte }.

(** An image is its rows, top to bottom; each row its pixels, left to right. *)
Definition RawImage : Type := list (list bgra).

Definition Frame : Type := list (list bgr).

Definition drop_alpha (p : bgra) : bgr := BGR (b4 p) (g4 p) (r4 p).

(** [cv2.cvtColor(img, cv2.COLOR_BGRA2BGR)] (record.py, line 41): every
    pixel keeps its first three samples. *)
Definition cvtColor_BGRA2BGR (img : RawImage) : Frame :=
  map (map drop_alpha) img.

Definition height {P : Type} (img : list (list P)) : nat := List.length img.

(** The width of row [y]. *)
Definition row_width {P : Type} (img : list (list P)) (y : nat) : nat :=
  List.length (nth y img []).

Definition pixel {P : Type} (img : list (list P)) (y x : nat) : option P :=
  nth_error (nth y img []) x.

(** ** Values the program handles *)

(** One entry of [sct.monitors]. *)
Record Monitor : Type := MkMonitor {
  m_left : Z; m_top : Z; m_width : Z; m_height : Z
}.

(** Handles of the capture object and of the writer. *)
Definition handle : Type := nat.

Inductive exn : Type :=
| CaptureInitError     (* raised by [mss.mss()] or [sct.monitors] *)
| WriterInitError      (* raised by [cv2.VideoWriter(...)] *)
| CaptureReadError     (* raised by [sct.grab] *)
| WriteError           (* raised by [out.write] *)
| ZeroDivisionError    (* raised by [1.0 / FPS] *)
| IndexError.          (* raised by [sct.monitors[1]] *)

(** What a library call answers. *)
Inductive reply (A : Type) : Type :=
| Returns (a : A)
| Raises (e : exn).

Arguments Raises {A} e.

(** How a piece of the program ends; [OutOfFuel] is the model's bound on the
    number of loop iterations, not a behaviour of the source. *)
Inductive outcome (A : Type) : Type :=
| Ok (a : A)
| Raise (e : exn)
| OutOfFuel.

Arguments Raise {A} e.

Arguments OutOfFuel {A}.

(** [cv2.VideoWriter_fourcc(c1, c2, c3, c4)]: the four character codes packed
    little-endian into one integer. *)
Definition VideoWriter_fourcc (c1 c2 c3 c4 : ascii) : Z :=
  let code c := Z.land (Z.of_nat (nat_of_ascii c)) 255 in
  Z.lor (Z.lor (code c1) (Z.shiftl (code c2) 8))
        (Z.lor (Z.shiftl (code c3) 16) (Z.shiftl (code c4) 24)).

(** ** The calls the program makes *)

Inductive event (T : Type) : Type :=
| EvMss (r : reply handle)                        (* [mss.mss()] entered *)
| EvMssExit                                       (* the [with] block left *)
| EvMonitors (r : reply (list Monitor))           (* [sct.monitors] *)
| EvStamp (s : string)                            (* [datetime.now().strftime] *)
| EvOpen (path : string) (fourcc fps : Z) (size : Z * Z) (r : reply handle)
                                                  (* [cv2.VideoWriter(...)] *)
| EvPrintStarted (path : string)                  (* the first [print] *)
| EvIsSet (b : bool)                              (* [stop_flag.is_set()] *)
| EvTime (t : T)                                  (* [time.time()] *)
| EvGrab (r : reply RawImage)                     (* [np.array(sct.grab(monitor))] *)
| EvWrite (f : Frame) (r : reply unit)            (* [out.write(frame)] *)
| EvSleep (d : T)                                 (* [time.sleep(d)] *)
| EvRelease                                       (* [out.release()] *)
| EvPrintSaved (path : string).                   (* the last [print] *)

Arguments EvMss {T} r.

Arguments EvMssExit {T}.

Arguments EvMonitors {T} r.

Arguments EvStamp {T} s.

Arguments EvOpen {T} path fourcc fps size r.

Arguments EvPrintStarted {T} path.

Arguments EvIsSet {T} b.

Arguments EvGrab {T} r.

Arguments EvWrite {T} f r.

Arguments EvRelease {T}.

Arguments EvPrintSaved {T} path.

(** The outside world.  [desktop] is the module-level path of line 10. *)
Record Backend (T W : Type) : Type := {
  desktop : string;
  os_path_join : string -> string -> string;
  mss_enter : W -> reply handle * W;
  mss_exit : handle -> W -> W;
  mss_monitors : handle -> W -> reply (list Monitor) * W;
  strftime_now : W -> string * W;
  VideoWriter : string -> Z -> Z -> Z * Z -> W -> reply handle * W;
  print_started : string -> W -> W;
  is_set : W -> bool * W;
  time_time : W -> T * W;
  grab : handle -> Monitor -> W -> reply RawImage * W;
  write : handle -> Frame -> W -> reply unit * W;
  sleep : T -> W -> W;
  release : handle -> W -> W;
  print_saved : string -> W -> W
}.

(** ** The program *)

Section Program.

Context {T : Type} {TO : TimeOps T} {W : Type} (B : Backend T W).

(** A computation: from a world to how it ended, the world it left and the
    calls it made. *)
Definition M (A : Type) : Type := W -> outcome A * W * list (event T).

Definition ret {A : Type} (a : A) : M A := fun w => (Ok a, w, []).

Definition raise {A : Type} (e : exn) : M A := fun w => (Raise e, w, []).

Definition bind {A C : Type} (m : M A) (k : A -> M C) : M C :=
  fun w =>
    match m w with
    | (Ok a, w1, l1) => let '(r, w2, l2) := k a w1 in (r, w2, l1 ++ l2)
    | (Raise e, w1, l1) => (Raise e, w1, l1)
    | (OutOfFuel, w1, l1) => (OutOfFuel, w1, l1)
    end.

(** A call that can raise: the answer is logged by [ev]. *)
Definition call {A : Type} (op : W -> reply A * W)
           (ev : reply A -> event T) : M A :=
  fun w =>
    match op w with
    | (Returns a, w1) => (Ok a, w1, [ev (Returns a)])
    | (Raises e, w1) => (Raise e, w1, [ev (Raises e)])
    end.

(** A call that always returns. *)
Definition ask {A : Type} (op : W -> A * W) (ev : A -> event T) : M A :=
  fun w => let '(a, w1) := op w in (Ok a, w1, [ev a]).

Definition tell (op : W -> W) (ev : event T) : M unit :=
  fun w => (Ok tt, op w, [ev]).

End Program.

Arguments M T W A : clear implicits.

Declare Scope rec_scope.

Delimit Scope rec_scope with rec.

Notation "x <- m ;; k" := (bind m (fun x => k))
  (at level 100, m at next level, right associativity) : rec_scope.

Notation "m ;;; k" := (bind m (fun _ => k))
  (at level 100, right associativity) : rec_scope.

Section RecordScreen.

Context {T : Type} {TO : TimeOps T} {W : Type} (B : Backend T W).

Local Open Scope rec_scope.

(** [with mss.mss() as sct: body]: the capture object is closed when the
    block is left, by return or by exception. *)
Definition with_mss {A : Type} (body : handle -> M T W A) : M T W A :=
  fun w =>
    match mss_enter B w with
    | (Raises e, w1) => (Raise e, w1, [EvMss (Raises e)])
    | (Returns sct, w1) =>
        match body sct w1 with
        | (OutOfFuel, w2, l) => (OutOfFuel, w2, EvMss (Returns sct) :: l)
        | (r, w2, l) =>
            (r, mss_exit B sct w2, EvMss (Returns sct) :: l ++ [EvMssExit])
        end
    end.

(** [seq[i]] on a Python list, for [i >= 0]. *)
Definition index {A : Type} (l : list A) (i : nat) : M T W A :=
  match nth_error l i with
  | Some a => ret a
  | None => raise IndexError
  end.

(** [1.0 / FPS] (line 32). *)
Definition one_over (FPS : Z) : M T W T :=
  if (FPS =? 0)%Z then raise ZeroDivisionError
  else ret (t_div t_one (t_of_int FPS)).

(** The locals of [record_screen] that the loop reads. *)
Record Locals : Type := MkLocals {
  sct : handle;
  monitor : Monitor;
  output_video : string;
  out : handle;
  frame_interval : T
}.

(** Lines 19-33: everything before the [while]; returns the locals and
    the first [next_frame_time]. *)
Definition initialise (FPS : Z) (sct : handle) : M T W (Locals * T) :=
  monitors <- call (mss_monitors B sct) EvMonitors ;;
  monitor <- index monitors 1 ;;
  let width := m_width monitor in
  let height := m_height monitor in
  timestamp <- ask (strftime_now B) EvStamp ;;
  let output_video := os_path_join B (desktop B) (String.append timestamp ".mp4") in
  let fourcc := VideoWriter_fourcc "m" "p" "4" "v" in
  out <- call (VideoWriter B output_video fourcc FPS (width, height))
              (EvOpen output_video fourcc FPS (width, height)) ;;
  tell (print_started B output_video) (EvPrintStarted output_video) ;;;
  frame_interval <- one_over FPS ;;
  next_frame_time <- ask (time_time B) (@EvTime T) ;;
  ret (MkLocals sct monitor output_video out frame_interval, next_frame_time).

(** Lines 45-49: the new deadline after a frame has been written. *)
Definition advance (frame_interval next_frame_time current_time : T) : T :=
  let next_frame_time := t_add next_frame_time frame_interval in
  if t_gtb (t_sub current_time next_frame_time) frame_interval
  then current_time
  else next_frame_time.

(** Lines 35-52, one turn of the [while]: [None] when the loop is left,
    otherwise the deadline the next turn starts with. *)
Definition loop_iter (L : Locals) (next_frame_time : T) : M T W (option T) :=
  stop <- ask (is_set B) EvIsSet ;;
  if stop then ret None
  else
    current_time <- ask (time_time B) (@EvTime T) ;;
    if t_geb current_time next_frame_time then
      img <- call (grab B (sct L) (monitor L)) EvGrab ;;
      let frame := cvtColor_BGRA2BGR img in
      call (write B (out L) frame) (EvWrite frame) ;;;
      ret (Some (advance (frame_interval L) next_frame_time current_time))
    else
      tell (sleep B t_milli) (EvSleep t_milli) ;;;
      ret (Some next_frame_time).

(** The [while] of line 35, at most [fuel] turns; returns the last
    deadline. *)
Fixpoint while_loop (fuel : nat) (L : Locals) (next_frame_time : T)
  : M T W T :=
  match fuel with
  | O => fun w => (OutOfFuel, w, [])
  | S fuel' =>
      r <- loop_iter L next_frame_time ;;
      match r with
      | None => ret next_frame_time
      | Some next_frame_time' => while_loop fuel' L next_frame_time'
      end
  end.

(** Lines 54-55. *)
Definition finish (L : Locals) : M T W unit :=
  tell (release B (out L)) EvRelease ;;;
  tell (print_saved B (output_video L)) (EvPrintSaved (output_video L)).

(** [record_screen()], with the module constant [FPS] as a parameter. *)
Definition record_screen (fuel : nat) (FPS : Z) : M T W unit :=
  with_mss (fun sct =>
    st <- initialise FPS sct ;;
    let '(L, next_frame_time) := st in
    while_loop fuel L next_frame_time ;;;
    finish L).

End RecordScreen.

(** ** A simulated world

    A test double of the outside world over exact rational time (seconds).
    The clock moves only when the program sleeps or a capture takes time;
    the stop flag is set once the clock has reached [stop_at]; captures and
    writes fail where the configuration says so.  Every frame appended to the
    file is kept with the clock value at the call. *)

Module Sim.

Record Config : Type := MkConfig {
  display_ok : bool;              (* [mss.mss()] finds a display *)
  screens : list Monitor;         (* the value of [sct.monitors] *)
  stamp : string;                 (* what [strftime] answers *)
  writer_ok : bool;               (* [cv2.VideoWriter(...)] succeeds *)
  stop_at : option Q;             (* when the controller sets the flag *)
  latency : nat -> Q;             (* how long capture number [n] takes *)
  grab_ok : nat -> bool;          (* whether capture number [n] succeeds *)
  write_ok : nat -> bool;         (* whether write number [n] succeeds *)
  screen : RawImage               (* what is on the display *)
}.

Record World : Type := MkWorld {
  clock : Q;
  grabs : nat;                    (* captures attempted so far *)
  writes : nat;                   (* writes attempted so far *)
  file : list (Q * Frame);        (* frames in the file, oldest first *)
  opened : nat;                   (* writers opened *)
  released : nat;                 (* [release] calls *)
  closed_sct : nat                (* capture objects closed *)
}.

Definition start (t0 : Q) : World := MkWorld t0 0 0 [] 0 0 0.

Definition flag (c : Config) (w : World) : bool :=
  match stop_at c with
  | Some s => Qle_bool s (clock w)
  | None => false
  end.

Definition do_grab (c : Config) (w : World) : reply RawImage * World :=
  let n := grabs w in
  let w' := MkWorld (clock w + latency c n) (S n) (writes w) (file w)
                    (opened w) (released w) (closed_sct w) in
  if grab_ok c n then (Returns (screen c), w') else (Raises CaptureReadError, w').

Definition do_write (c : Config) (f : Frame) (w : World) : reply unit * World :=
  let n := writes w in
  if write_ok c n
  then (Returns tt,
        MkWorld (clock w) (grabs w) (S n) (file w ++ [(clock w, f)])
                (opened w) (released w) (closed_sct w))
  else (Raises WriteError,
        MkWorld (clock w) (grabs w) (S n) (file w)
                (opened w) (released w) (closed_sct w)).

Definition do_open (c : Config) (w : World) : reply handle * World :=
  if writer_ok c
  then (Returns 1%nat,
        MkWorld (clock w) (grabs w) (writes w) (file w)
                (S (opened w)) (released w) (closed_sct w))
  else (Raises WriterInitError, w).

Definition do_sleep (d : Q) (w : World) : World :=
  MkWorld (clock w + d) (grabs w) (writes w) (file w)
          (opened w) (released w) (closed_sct w).

Definition do_release (w : World) : World :=
  MkWorld (clock w) (grabs w) (writes w) (file w)
          (opened w) (S (released w)) (closed_sct w).

Definition do_exit (w : World) : World :=
  MkWorld (clock w) (grabs w) (writes w) (file w)
          (opened w) (released w) (S (closed_sct w)).

Definition backend (c : Config) : Backend Q World := {|
  desktop := "Desktop";
  os_path_join := fun a b => String.append a (String.append "/" b);
  mss_enter := fun w =>
    if display_ok c then (Returns 0%nat, w) else (Raises CaptureInitError, w);
  mss_exit := fun _ => do_exit;
  mss_monitors := fun _ w => (Returns (screens c), w);
  strftime_now := fun w => (stamp c, w);
  VideoWriter := fun _ _ _ _ => do_open c;
  print_started := fun _ w => w;
  is_set := fun w => (flag c w, w);
  time_time := fun w => (clock w, w);
  grab := fun _ _ => do_grab c;
  write := fun _ => do_write c;
  sleep := do_sleep;
  release := fun _ => do_release;
  print_saved := fun _ w => w
|}.


Definition primary : Monitor := MkMonitor 0 0 2 1.

Definition blank : RawImage :=
  [[BGRA x10 x20 x30 xff; BGRA x11 x21 x31 xff]].

(** A healthy world: a display, a writer that opens, captures and writes
    that succeed and take no time, the flag set at time [stop]. *)
Definition nominal (stop : Q) : Config :=
  MkConfig true [primary; primary] "2025-01-01_00-00-00" true (Some stop)
           (fun _ => 0) (fun _ => true) (fun _ => true) blank.

(** The healthy world with a script: how long each capture takes and which
    captures and writes fail. *)
Definition scripted (stop : Q) (lat : nat -> Q) (captures writes_ok : nat -> bool)
  : Config :=
  MkConfig true [primary; primary] "2025-01-01_00-00-00" true (Some stop)
           lat captures writes_ok blank.


(** Capture number [n] raises. *)
Definition capture_fails (stop : Q) (n : nat) : Config :=
  scripted stop (fun _ => 0) (fun k => negb (Nat.eqb k n)) (fun _ => true).

(** Write number [n] raises. *)
Definition write_fails (stop : Q) (n : nat) : Config :=
  scripted stop (fun _ => 0) (fun _ => true) (fun k => negb (Nat.eqb k n)).


Definition run (c : Config) (fuel : nat) (FPS : Z) (t0 : Q) :=
  record_screen (backend c) fuel FPS (start t0).

End Sim.

(** ** One turn of the loop, seen from outside

    Whatever the world answers, a turn of the [while] is one of five: the
    flag was set; a frame was captured and written; the deadline was not
    reached and the loop slept; the capture raised; the write raised. *)

Inductive turn (T : Type) : Type :=
| Stopped
| Wrote (current_time : T) (img : RawImage)
| Slept (current_time : T)
| GrabFailed (current_time : T) (e : exn)
| WriteFailed (current_time : T) (img : RawImage) (e : exn).

Arguments Stopped {T}.

Section Turns.

Context {T : Type} {TO : TimeOps T}.

(** The calls of a turn, in order. *)
Definition turn_events (k : turn T) : list (event T) :=
  match k with
  | Stopped => [EvIsSet true]
  | Wrote c img =>
      [EvIsSet false; EvTime c; EvGrab (Returns img);
       EvWrite (cvtColor_BGRA2BGR img) (Returns tt)]
  | Slept c => [EvIsSet false; EvTime c; EvSleep t_milli]
  | GrabFailed c e => [EvIsSet false; EvTime c; EvGrab (Raises e)]
  | WriteFailed c img e =>
      [EvIsSet false; EvTime c; EvGrab (Returns img);
       EvWrite (cvtColor_BGRA2BGR img) (Raises e)]
  end.

(** How a turn ends, from the deadline [d] it started with. *)
Definition turn_result (I d : T) (k : turn T) : outcome (option T) :=
  match k with
  | Stopped => Ok None
  | Wrote c _ => Ok (Some (advance I d c))
  | Slept _ => Ok (Some d)
  | GrabFailed _ e => Raise e
  | WriteFailed _ _ e => Raise e
  end.

(** The branch of line 39 a turn took. *)
Definition turn_due (d : T) (k : turn T) : Prop :=
  match k with
  | Stopped => True
  | Wrote c _ | GrabFailed c _ | WriteFailed c _ _ => t_geb c d = true
  | Slept c => t_geb c d = false
  end.

(** The turns of a run of the [while] that starts with [fuel] and deadline
    [d], and how the run ends. *)
Inductive Loop (I : T) : nat -> T -> list (turn T) -> outcome T -> Prop :=
| Loop_fuel : forall d, Loop I 0 d [] OutOfFuel
| Loop_stop : forall fuel d, Loop I (S fuel) d [Stopped] (Ok d)
| Loop_wrote : forall fuel d c img ks r,
    t_geb c d = true ->
    Loop I fuel (advance I d c) ks r ->
    Loop I (S fuel) d (Wrote c img :: ks) r
| Loop_slept : forall fuel d c ks r,
    t_geb c d = false ->
    Loop I fuel d ks r ->
    Loop I (S fuel) d (Slept c :: ks) r
| Loop_grab : forall fuel d c e,
    t_geb c d = true ->
    Loop I (S fuel) d [GrabFailed c e] (Raise e)
| Loop_write : forall fuel d c img e,
    t_geb c d = true ->
    Loop I (S fuel) d [WriteFailed c img e] (Raise e).

Variable W : Type.

Definition result_of {A : Type} (x : outcome A * W * list (event T)) : outcome A :=
  fst (fst x).

Definition world_of {A : Type} (x : outcome A * W * list (event T)) : W :=
  snd (fst x).

Definition trace_of {A : Type} (x : outcome A * W * list (event T))
  : list (event T) := snd x.

End Turns.

(** ** The shape of a whole run *)

Section Shapes.

Context {T : Type} {TO : TimeOps T}.

(** What [initialise] logs when it returns. *)
Definition init_trace (ms : list Monitor) (s : string) (FPS : Z)
           (L : Locals (T := T)) (d0 : T) : list (event T) :=
  [EvMonitors (Returns ms); EvStamp s;
   EvOpen (output_video L) (VideoWriter_fourcc "m" "p" "4" "v") FPS
          (m_width (monitor L), m_height (monitor L)) (Returns (out L));
   EvPrintStarted (output_video L); EvTime d0].

(** What [initialise] logs when it raises [e]. *)
Inductive init_failed (FPS : Z) (e : exn) : list (event T) -> Prop :=
| IF_monitors : init_failed FPS e [EvMonitors (Raises e)]
| IF_index : forall ms,
    e = IndexError -> nth_error ms 1 = None ->
    init_failed FPS e [EvMonitors (Returns ms)]
| IF_open : forall ms s p sz,
    init_failed FPS e
      [EvMonitors (Returns ms); EvStamp s;
       EvOpen p (VideoWriter_fourcc "m" "p" "4" "v") FPS sz (Raises e)]
| IF_zero : forall ms s p sz o,
    e = ZeroDivisionError -> FPS = 0%Z ->
    init_failed FPS e
      [EvMonitors (Returns ms); EvStamp s;
       EvOpen p (VideoWriter_fourcc "m" "p" "4" "v") FPS sz (Returns o);
       EvPrintStarted p].

(** What follows the turns of the loop in the trace. *)
Definition closing (r : outcome T) (L : Locals (T := T)) : list (event T) :=
  match r with
  | Ok _ => [EvRelease; EvPrintSaved (output_video L); EvMssExit]
  | Raise _ => [EvMssExit]
  | OutOfFuel => []
  end.

Definition ends {A : Type} (r : outcome A) : outcome unit :=
  match r with
  | Ok _ => Ok tt
  | Raise e => Raise e
  | OutOfFuel => OutOfFuel
  end.

(** Every run of [record_screen] is one of three: the capture object could
    not be made; the start-up raised; the loop ran. *)
Inductive Run (fuel : nat) (FPS : Z) : outcome unit -> list (event T) -> Prop :=
| Run_no_display : forall e,
    Run fuel FPS (Raise e) [EvMss (Raises e)]
| Run_init_failed : forall sct0 e l0,
    init_failed FPS e l0 ->
    Run fuel FPS (Raise e) (EvMss (Returns sct0) :: l0 ++ [EvMssExit])
| Run_loop : forall sct0 ms s L d0 ks r,
    FPS <> 0%Z ->
    frame_interval L = t_div t_one (t_of_int FPS) ->
    nth_error ms 1 = Some (monitor L) ->
    Loop (frame_interval L) fuel d0 ks r ->
    Run fuel FPS (ends r)
        (EvMss (Returns sct0) ::
         init_trace ms s FPS L d0 ++ flat_map turn_events ks ++ closing r L).

End Shapes.

(** ** Counting calls in a trace *)

Section Counting.

Context {T : Type}.

Definition is_open (e : event T) : bool :=
  match e with EvOpen _ _ _ _ (Returns _) => true | _ => false end.

Definition is_release (e : event T) : bool :=
  match e with EvRelease => true | _ => false end.

Definition is_check (e : event T) : bool :=
  match e with EvIsSet _ => true | _ => false end.

Definition is_grab (e : event T) : bool :=
  match e with EvGrab _ => true | _ => false end.

Definition is_write (e : event T) : bool :=
  match e with EvWrite _ _ => true | _ => false end.

Definition is_sleep (e : event T) : bool :=
  match e with EvSleep _ => true | _ => false end.

(** The calls only the loop body makes. *)
Definition is_loop_call (e : event T) : bool :=
  match e with
  | EvIsSet _ | EvTime _ | EvGrab _ | EvWrite _ _ | EvSleep _ => true
  | _ => false
  end.

Definition count (p : event T -> bool) (l : list (event T)) : nat :=
  List.length (filter p l).

End Counting.

(** ** Order laws of the time arithmetic

    What the monotonicity of the deadline needs of [>=], [>], [+] and [-].
    The laws hold for the rationals, and for binary64 floats away from NaN. *)

Class TimeLaws (T : Type) {TO : TimeOps T} : Prop := {
  geb_refl : forall a : T, t_geb a a = true;
  geb_trans : forall a b c : T,
      t_geb a b = true -> t_geb b c = true -> t_geb a c = true;
  add_pos_geb : forall a i : T,
      t_gtb i (t_of_int 0) = true -> t_geb (t_add a i) a = true;
  sub_gtb_geb : forall a b i : T,
      t_gtb i (t_of_int 0) = true -> t_gtb (t_sub a b) i = true ->
      t_geb a b = true
}.

Arguments TimeLaws T {TO}.

(** ** Frame times

    The clock reading of the turn in which each frame was written, read off
    the trace: the last [time.time()] before the write. *)

Section FrameTimes.

Context {T : Type} {TO : TimeOps T}.





End FrameTimes.


(** ** The simulated world at line 35

    What the proofs about simulated runs keep track of.  [stop] is when the
    flag is set, [t0] when the recorder starts, [FPS] its rate. *)

(** The locals of [record_screen] in the simulated world. *)
Definition nominal_locals (FPS : Z) : Locals (T := Q) :=
  MkLocals 0%nat Sim.primary "Desktop/2025-01-01_00-00-00.mp4" 1%nat
           (t_div t_one (t_of_int FPS)).

(** The world once the writer is open, before the first turn. *)
Definition opened_world (t0 : Q) : Sim.World := Sim.MkWorld t0 0 0 [] 1 0 0.


(** The same when capture number [n] takes [lat n]. *)
Definition slow_wrote_world (lat : nat -> Q) (w : Sim.World) : Sim.World :=
  Sim.MkWorld (Sim.clock w + lat (Sim.grabs w)) (S (Sim.grabs w)) (S (Sim.writes w))
              (Sim.file w ++
               [(Sim.clock w + lat (Sim.grabs w), cvtColor_BGRA2BGR Sim.blank)])
              (Sim.opened w) (Sim.released w) (Sim.closed_sct w).




(** A bound on the turns still to come: one per sleep left before [stop],
    one per frame left before [stop], and the last check. *)
Definition potential (stop : Q) (FPS : Z) (d : Q) (w : Sim.World) : Q :=
  (stop - Sim.clock w) * 1000 + (stop - d) * inject_Z FPS + 2.

(** What holds each time the loop is at line 35 when a capture takes at
    most [Lmax]: the last frame was due before [stop], and the turn before
    started before [stop]. *)
Definition on_time (stop Lmax : Q) (FPS : Z) (d : Q) (w : Sim.World) : Prop :=
  d - t_div t_one (t_of_int FPS) < stop /\
  Sim.clock w < stop + Lmax + (1 # 1000).

(** ** More vocabulary for traces *)

Section MoreCounting.

Context {T : Type}.

Definition is_mss_exit (e : event T) : bool :=
  match e with EvMssExit => true | _ => false end.

(** The images the captures returned, in order. *)
Definition captured (l : list (event T)) : list RawImage :=
  flat_map (fun e => match e with EvGrab (Returns img) => [img] | _ => [] end) l.

(** The frames the writer accepted, in order. *)
Definition written (l : list (event T)) : list Frame :=
  flat_map (fun e => match e with EvWrite f (Returns _) => [f] | _ => [] end) l.


End MoreCounting.


(** A simulated world whose display list has no entry 1. *)
Definition single_monitor_world : Sim.Config :=
  Sim.MkConfig true [Sim.primary] "2025-01-01_00-00-00" true None
               (fun _ => 0) (fun _ => true) (fun _ => true) Sim.blank.

(** * The index generator of [demo.py]

    [scan_html_files] and [main] of demo.py.  The outside world is the
    directory listing, the clock, the file written and the [git] commands;
    [generate_html] (lines 75-295, one long template) and the text of the
    commit message (lines 352-357) are parameters of [main]: what is proved
    of [main] holds whatever text they produce.  Each [print] is logged as
    the statement it is, with the values it formats. *)

Module Demo.

(** ** Paths and the scan *)

(** A path below the scanned directory: its components, outermost first. *)
Definition rel_path : Type := list string.

(** [str(p)] for a relative path: the components joined by [os.sep], or
    ["."] when there are none. *)
Definition str_path (sep : string) (p : rel_path) : string :=
  match p with
  | [] => "."
  | _ => String.concat sep p
  end.

(** [p.name] and [p.parent]. *)
Definition path_name (p : rel_path) : string := last p "".
Definition path_parent (p : rel_path) : rel_path := removelast p.

(** [s.replace('\\', '/')]. *)
Fixpoint replace_backslash (s : string) : string :=
  match s with
  | EmptyString => EmptyString
  | String c r =>
      String (if Ascii.eqb c (ascii_of_nat 92) then ascii_of_nat 47 else c)
             (replace_backslash r)
  end.

(** One entry of a folder's list: the dict [{'name': ..., 'path': ...}]. *)
Record file_info : Type := MkFile { name : string; path : string }.

(** The dict from folder to its files, in insertion order. *)
Definition html_files : Type := list (string * list file_info).

(** [d[folder].append(x)] on a [defaultdict(list)]. *)
Fixpoint append_to (folder : string) (x : file_info) (d : html_files) : html_files :=
  match d with
  | [] => [(folder, [x])]
  | (k, v) :: rest =>
      if String.eqb k folder then (k, v ++ [x]) :: rest
      else (k, v) :: append_to folder x rest
  end.

(** Lines 25-40: one turn of the [for] over the files found. *)
Definition scan_step (sep : string) (d : html_files) (p : rel_path) : html_files :=
  if String.eqb (path_name p) "index.html" &&
     match path_parent p with [] => true | _ => false end
  then d
  else
    let folder := str_path sep (path_parent p) in
    if String.eqb folder "." then d
    else append_to folder (MkFile (path_name p) (replace_backslash (str_path sep p))) d.

(** [l.sort(key=...)] and [sorted(l)]: the stable sort by a string key,
    written as insertion sort (a stable sort has one result). *)
Fixpoint insert_by {A : Type} (key : A -> string) (x : A) (l : list A) : list A :=
  match l with
  | [] => [x]
  | y :: r =>
      if String.leb (key x) (key y) then x :: y :: r
      else y :: insert_by key x r
  end.

Fixpoint sort_by {A : Type} (key : A -> string) (l : list A) : list A :=
  match l with
  | [] => []
  | x :: r => insert_by key x (sort_by key r)
  end.

(** The order the sort by [key] leaves a list in. *)
Definition key_le {A : Type} (key : A -> string) (a b : A) : Prop :=
  String.leb (key a) (key b) = true.

(** Lines 21-46 of [scan_html_files], given what [rglob] found. *)
Definition organise (sep : string) (found : list rel_path) : html_files :=
  map (fun kv => (fst kv, sort_by name (snd kv)))
      (fold_left (scan_step sep) found []).

(** [sum(len(files) for files in html_files.values())]. *)
Definition total_files (d : html_files) : nat :=
  fold_right (fun kv n => (List.length (snd kv) + n)%nat) 0%nat d.

(** [d[folder]]. *)
Fixpoint lookup (folder : string) (d : html_files) : option (list file_info) :=
  match d with
  | [] => None
  | (k, v) :: rest => if String.eqb k folder then Some v else lookup folder rest
  end.

(** ** What [main] talks to *)

Inductive exn : Type :=
| FileNotFoundError (msg : string)
| OtherError (msg : string)         (* any other subclass of [Exception] *)
| KeyError (key : string)
| Interrupt.                        (* outside [Exception]: [KeyboardInterrupt] *)

Inductive reply (A : Type) : Type :=
| Returns (a : A)
| Raises (e : exn).
Arguments Raises {A} e.

(** What [subprocess.run(..., capture_output=True, text=True)] returns. *)
Record completed : Type := MkCompleted {
  returncode : Z; stdout : string; stderr : string
}.

Inductive git_cmd : Type :=
| GitAdd                            (* ["git", "add", "-A"] *)
| GitCommit (message : string)      (* ["git", "commit", "-m", message] *)
| GitPush.                          (* ["git", "push"] *)

(** The [print] statements of [main], by line. *)
Inductive message : Type :=
| MsgScanning (dir : string)                    (* 303 *)
| MsgNoFiles                                    (* 309 *)
| MsgFound (files folders : nat)                (* 312 *)
| MsgGenerated (output_path : string)           (* 322 *)
| MsgFolders                                    (* 323 *)
| MsgFolder (folder : string) (files : nat)     (* 325 *)
| MsgRule                                       (* 328, 330, 390, 392 *)
| MsgStarting                                   (* 329 *)
| MsgAdding                                     (* 334 *)
| MsgAddOk                                      (* 342 *)
| MsgAddFailed (err : string)                   (* 344 *)
| MsgCommitting                                 (* 348 *)
| MsgCommitOk                                   (* 366 *)
| MsgCommitOutput (out : string)                (* 367 *)
| MsgNothingToCommit                            (* 369 *)
| MsgCommitFailed (err : string)                (* 372 *)
| MsgPushing                                    (* 376 *)
| MsgPushOk                                     (* 384 *)
| MsgPushOutput (out : string)                  (* 385 *)
| MsgPushFailed (err : string)                  (* 387 *)
| MsgSuccess                                    (* 391 *)
| MsgGitMissing                                 (* 395 *)
| MsgError (text : string).                     (* 397 *)

Inductive event : Type :=
| EvPrint (m : message)
| EvRglob (r : reply (list rel_path))           (* [root_path.rglob("*.html")] *)
| EvNow (stamp : string)                        (* [datetime.now().strftime] *)
| EvWriteIndex (output_path content : string) (r : reply unit)
                                                (* lines 319-320 *)
| EvGit (c : git_cmd) (r : reply completed).    (* [subprocess.run] *)

Record Backend (W : Type) : Type := {
  os_sep : string;
  current_dir : string;                         (* [Path(__file__).parent] *)
  join_dir : string -> string -> string;        (* [dir / name] *)
  rglob_html : W -> reply (list rel_path) * W;
  strftime_now : W -> string * W;
  write_text : string -> string -> W -> reply unit * W;
  run_git : git_cmd -> W -> reply completed * W
}.

(** How [main] ends. *)
Inductive outcome (A : Type) : Type :=
| Ok (a : A)
| Raise (e : exn).
Arguments Raise {A} e.

(** ** The program *)

Section Program.

Context {W : Type} (B : Backend W).

(** [generate_html(html_files)], given the time stamp it puts in the footer,
    and the commit message of lines 352-357, given its time stamp and the
    two totals. *)
Variable generate_html : html_files -> string -> string.
Variable commit_message : string -> nat -> nat -> string.

Definition M (A : Type) : Type := W -> outcome A * W * list event.

Definition ret {A : Type} (a : A) : M A := fun w => (Ok a, w, []).

Definition raise {A : Type} (e : exn) : M A := fun w => (Raise e, w, []).

Definition bind {A C : Type} (m : M A) (k : A -> M C) : M C :=
  fun w =>
    match m w with
    | (Ok a, w1, l1) => let '(r, w2, l2) := k a w1 in (r, w2, l1 ++ l2)
    | (Raise e, w1, l1) => (Raise e, w1, l1)
    end.

Definition call {A : Type} (op : W -> reply A * W) (ev : reply A -> event) : M A :=
  fun w =>
    match op w with
    | (Returns a, w1) => (Ok a, w1, [ev (Returns a)])
    | (Raises e, w1) => (Raise e, w1, [ev (Raises e)])
    end.

Definition print (m : message) : M unit := fun w => (Ok tt, w, [EvPrint m]).

Definition now : M string :=
  fun w => let '(s, w1) := strftime_now B w in (Ok s, w1, [EvNow s]).

(** [try: body except FileNotFoundError: ... except Exception as e: ...]
    (lines 332, 394-397). *)
Definition try_git (body : M unit) : M unit :=
  fun w =>
    match body w with
    | (Raise (FileNotFoundError _), w1, l1) => (Ok tt, w1, l1 ++ [EvPrint MsgGitMissing])
    | (Raise (OtherError msg), w1, l1) => (Ok tt, w1, l1 ++ [EvPrint (MsgError msg)])
    | (Raise (KeyError k), w1, l1) => (Ok tt, w1, l1 ++ [EvPrint (MsgError k)])
    | r => r
    end.

Fixpoint for_each {A : Type} (l : list A) (body : A -> M unit) : M unit :=
  match l with
  | [] => ret tt
  | x :: r => bind (body x) (fun _ => for_each r body)
  end.

(** [scan_html_files(root_dir)] (lines 15-46). *)
Definition scan_html_files : M html_files :=
  bind (call (rglob_html B) EvRglob) (fun found => ret (organise (os_sep B) found)).

(** Lines 332-392: the body of the [try]. *)
Definition git_operations (d : html_files) : M unit :=
  bind (print MsgAdding) (fun _ =>
  bind (call (run_git B GitAdd) (EvGit GitAdd)) (fun result =>
  if (returncode result =? 0)%Z then
    bind (print MsgAddOk) (fun _ =>
    bind (print MsgCommitting) (fun _ =>
    bind now (fun stamp =>
    let commit := GitCommit (commit_message stamp (total_files d) (List.length d)) in
    bind (call (run_git B commit) (EvGit commit)) (fun result =>
    if (returncode result =? 0)%Z then
      bind (print MsgCommitOk) (fun _ =>
      bind (print (MsgCommitOutput (stdout result))) (fun _ =>
      bind (print MsgPushing) (fun _ =>
      bind (call (run_git B GitPush) (EvGit GitPush)) (fun result =>
      if (returncode result =? 0)%Z then
        bind (print MsgPushOk) (fun _ =>
        bind (print (MsgPushOutput
                       (if String.eqb (stdout result) ""
                        then "Changes pushed to remote repository"
                        else stdout result))) (fun _ =>
        bind (print MsgRule) (fun _ =>
        bind (print MsgSuccess) (fun _ =>
        print MsgRule))))
      else print (MsgPushFailed (stderr result))))))
    else
      match String.index 0 "nothing to commit" (stdout result) with
      | Some _ => print MsgNothingToCommit
      | None => print (MsgCommitFailed (stderr result))
      end))))
  else print (MsgAddFailed (stderr result)))).

(** [main()] (lines 298-397). *)
Definition main : M unit :=
  bind (print (MsgScanning (current_dir B))) (fun _ =>
  bind scan_html_files (fun d =>
  match d with
  | [] => print MsgNoFiles
  | _ =>
      bind (print (MsgFound (total_files d) (List.length d))) (fun _ =>
      bind now (fun stamp =>
      let output_path := join_dir B (current_dir B) "index.html" in
      bind (call (write_text B output_path (generate_html d stamp))
                 (EvWriteIndex output_path (generate_html d stamp))) (fun _ =>
      bind (print (MsgGenerated output_path)) (fun _ =>
      bind (print MsgFolders) (fun _ =>
      bind (for_each (sort_by (fun k => k) (map fst d))
                     (fun folder =>
                        match lookup folder d with
                        | Some files => print (MsgFolder folder (List.length files))
                        | None => raise (KeyError folder)
                        end)) (fun _ =>
      bind (print MsgRule) (fun _ =>
      bind (print MsgStarting) (fun _ =>
      bind (print MsgRule) (fun _ =>
      try_git (git_operations d))))))))))
  end)).

End Program.

(** The [git] commands of a trace, with their answers, in order. *)
Definition git_calls (l : list event) : list (git_cmd * reply completed) :=
  flat_map (fun e => match e with EvGit c r => [(c, r)] | _ => [] end) l.

(** The files written, in order. *)
Definition files_written (l : list event) : list (string * string) :=
  flat_map (fun e => match e with
                     | EvWriteIndex p c (Returns _) => [(p, c)]
                     | _ => []
                     end) l.


(** A command answered with return code 0. *)
Definition succeeded (r : reply completed) : Prop :=
  exists c, r = Returns c /\ returncode c = 0%Z.

(** How a run ended and what it logged. *)
Definition ended {W A : Type} (x : outcome A * W * list event) : outcome A :=
  fst (fst x).
Definition logged {W A : Type} (x : outcome A * W * list event) : list event :=
  snd x.

(** ** The shape of a run of [main] *)

Section Shapes.

Variable commit_message : string -> nat -> nat -> string.
Variable d : html_files.

(** The calls up to a successful [git add], and up to a successful
    [git commit] after it. *)
Definition added (c1 : completed) : list event :=
  [EvPrint MsgAdding; EvGit GitAdd (Returns c1); EvPrint MsgAddOk].

Definition the_commit (stamp : string) : git_cmd :=
  GitCommit (commit_message stamp (total_files d) (List.length d)).

Definition committing (c1 : completed) (stamp : string) : list event :=
  added c1 ++ [EvPrint MsgCommitting; EvNow stamp].

Definition committed (c1 : completed) (stamp : string) (c2 : completed) : list event :=
  committing c1 stamp ++
  [EvGit (the_commit stamp) (Returns c2); EvPrint MsgCommitOk;
   EvPrint (MsgCommitOutput (stdout c2)); EvPrint MsgPushing].

(** The eight ways through the body of the [try]. *)
Inductive GitRun : outcome unit -> list event -> Prop :=
| GR_add_raises : forall e,
    GitRun (Raise e) [EvPrint MsgAdding; EvGit GitAdd (Raises e)]
| GR_add_failed : forall c1,
    returncode c1 <> 0%Z ->
    GitRun (Ok tt) [EvPrint MsgAdding; EvGit GitAdd (Returns c1);
                    EvPrint (MsgAddFailed (stderr c1))]
| GR_commit_raises : forall c1 stamp e,
    returncode c1 = 0%Z ->
    GitRun (Raise e) (committing c1 stamp ++ [EvGit (the_commit stamp) (Raises e)])
| GR_nothing_to_commit : forall c1 stamp c2 n,
    returncode c1 = 0%Z -> returncode c2 <> 0%Z ->
    String.index 0 "nothing to commit" (stdout c2) = Some n ->
    GitRun (Ok tt) (committing c1 stamp ++
                    [EvGit (the_commit stamp) (Returns c2); EvPrint MsgNothingToCommit])
| GR_commit_failed : forall c1 stamp c2,
    returncode c1 = 0%Z -> returncode c2 <> 0%Z ->
    String.index 0 "nothing to commit" (stdout c2) = None ->
    GitRun (Ok tt) (committing c1 stamp ++
                    [EvGit (the_commit stamp) (Returns c2);
                     EvPrint (MsgCommitFailed (stderr c2))])
| GR_push_raises : forall c1 stamp c2 e,
    returncode c1 = 0%Z -> returncode c2 = 0%Z ->
    GitRun (Raise e) (committed c1 stamp c2 ++ [EvGit GitPush (Raises e)])
| GR_push_failed : forall c1 stamp c2 c3,
    returncode c1 = 0%Z -> returncode c2 = 0%Z -> returncode c3 <> 0%Z ->
    GitRun (Ok tt) (committed c1 stamp c2 ++
                    [EvGit GitPush (Returns c3); EvPrint (MsgPushFailed (stderr c3))])
| GR_pushed : forall c1 stamp c2 c3,
    returncode c1 = 0%Z -> returncode c2 = 0%Z -> returncode c3 = 0%Z ->
    GitRun (Ok tt) (committed c1 stamp c2 ++
                    [EvGit GitPush (Returns c3); EvPrint MsgPushOk;
                     EvPrint (MsgPushOutput
                                (if String.eqb (stdout c3) ""
                                 then "Changes pushed to remote repository"
                                 else stdout c3));
                     EvPrint MsgRule; EvPrint MsgSuccess; EvPrint MsgRule]).

(** What the [except] clauses add to the log, and how [main] then ends. *)
Definition report (r : outcome unit) : list event :=
  match r with
  | Raise (FileNotFoundError _) => [EvPrint MsgGitMissing]
  | Raise (OtherError msg) => [EvPrint (MsgError msg)]
  | Raise (KeyError k) => [EvPrint (MsgError k)]
  | _ => []
  end.

Definition handled (r : outcome unit) : outcome unit :=
  match r with
  | Raise Interrupt => Raise Interrupt
  | _ => Ok tt
  end.

(** The lines 323-325: one line per folder, in sorted order. *)
Definition folder_lines : list event :=
  map (fun k => EvPrint (MsgFolder k (match lookup k d with
                                      | Some files => List.length files
                                      | None => 0%nat
                                      end)))
      (sort_by (fun k => k) (map fst d)).

End Shapes.

(** The calls of [main] from the scan to the banner before the [try]. *)
Definition prelude {W : Type} (B : Backend W) (generate_html : html_files -> string -> string)
           (found : list rel_path) (stamp : string) : list event :=
  let d := organise (os_sep B) found in
  let output_path := join_dir B (current_dir B) "index.html" in
  [EvPrint (MsgScanning (current_dir B)); EvRglob (Returns found);
   EvPrint (MsgFound (total_files d) (List.length d)); EvNow stamp;
   EvWriteIndex output_path (generate_html d stamp) (Returns tt);
   EvPrint (MsgGenerated output_path); EvPrint MsgFolders] ++
  folder_lines d ++ [EvPrint MsgRule; EvPrint MsgStarting; EvPrint MsgRule].

(** Every run of [main] is one of four. *)
Inductive MainRun {W : Type} (B : Backend W)
          (generate_html : html_files -> string -> string)
          (commit_message : string -> nat -> nat -> string)
  : outcome unit -> list event -> Prop :=
| MR_scan_raises : forall e,
    MainRun B generate_html commit_message (Raise e)
            [EvPrint (MsgScanning (current_dir B)); EvRglob (Raises e)]
| MR_no_files : forall found,
    organise (os_sep B) found = [] ->
    MainRun B generate_html commit_message (Ok tt)
            [EvPrint (MsgScanning (current_dir B)); EvRglob (Returns found);
             EvPrint MsgNoFiles]
| MR_write_raises : forall found stamp e,
    organise (os_sep B) found <> [] ->
    MainRun B generate_html commit_message (Raise e)
            [EvPrint (MsgScanning (current_dir B)); EvRglob (Returns found);
             EvPrint (MsgFound (total_files (organise (os_sep B) found))
                               (List.length (organise (os_sep B) found)));
             EvNow stamp;
             EvWriteIndex (join_dir B (current_dir B) "index.html")
                          (generate_html (organise (os_sep B) found) stamp) (Raises e)]
| MR_git : forall found stamp r l,
    organise (os_sep B) found <> [] ->
    GitRun commit_message (organise (os_sep B) found) r l ->
    MainRun B generate_html commit_message (handled r)
            (prelude B generate_html found stamp ++ l ++ report r).

(** The entries of the dict, folder by folder, and what the scan should
    list: one entry per file found in a subfolder. *)
Definition entries (d : html_files) : list (string * file_info) :=
  flat_map (fun kv => map (fun f => (fst kv, f)) (snd kv)) d.

Definition listed (sep : string) (p : rel_path) : list (string * file_info) :=
  if String.eqb (str_path sep (path_parent p)) "." then []
  else [(str_path sep (path_parent p),
         MkFile (path_name p) (replace_backslash (str_path sep p)))].

(** The folders that hold a listed file, each once. *)
Definition folders_of (sep : string) (found : list rel_path) : list string :=
  nodup string_dec (map fst (flat_map (listed sep) found)).

(** [needle in s]. *)
Definition occurs (needle s : string) : Prop :=
  exists n, substring n (String.length needle) s = needle.

(** ** A scripted world

    The listing and the answer to the write are fixed; the [git] commands
    are answered from a script, one answer per command, and [git] is
    missing once the script is used up. *)

Module Script.

Record Config : Type := {
  listing : reply (list rel_path);
  write_answer : reply unit;
  git_answers : list (reply completed)
}.

Definition World : Type := list (reply completed).

Definition start (cfg : Config) : World := git_answers cfg.

Definition do_git (w : World) : reply completed * World :=
  match w with
  | [] => (Raises (FileNotFoundError "git"), [])
  | r :: rest => (r, rest)
  end.

Definition backend (cfg : Config) : Backend World := {|
  os_sep := "/";
  current_dir := "/site";
  join_dir := fun dir file => String.append dir (String.append "/" file);
  rglob_html := fun w => (listing cfg, w);
  strftime_now := fun w => ("2025-01-01 00:00:00", w);
  write_text := fun _ _ w => (write_answer cfg, w);
  run_git := fun _ w => do_git w
|}.

(** Stand-ins for the two texts. *)
Definition page (d : html_files) (stamp : string) : string := stamp.
Definition note (stamp : string) (files folders : nat) : string := stamp.

Definition run (cfg : Config) : outcome unit * World * list event :=
  main (backend cfg) page note (start cfg).

(** A site with two demos in one folder and one in another, beside the
    root's own pages. *)
Definition site : list rel_path :=
  [["index.html"]; ["b"; "two.html"]; ["a"; "x"; "one.html"];
   ["about.html"]; ["b"; "index.html"]].

Definition done (out : string) : reply completed := Returns (MkCompleted 0 out "").
Definition failed (out err : string) : reply completed :=
  Returns (MkCompleted 1 out err).

Definition healthy : Config :=
  {| listing := Returns site; write_answer := Returns tt;
     git_answers := [done ""; done "1 file changed"; done ""] |}.

Definition clean_tree : Config :=
  {| listing := Returns site; write_answer := Returns tt;
     git_answers := [done ""; failed "On branch main: nothing to commit, working tree clean" ""] |}.

Definition no_git : Config :=
  {| listing := Returns site; write_answer := Returns tt; git_answers := [] |}.


Definition flat_site : Config :=
  {| listing := Returns [["index.html"]; ["about.html"]];
     write_answer := Returns tt; git_answers := [done ""; done ""; done ""] |}.

End Script.

End Demo.

(** * Lemmas and theorems *)

(** ** Every turn is one of five, every run a list of turns *)

Section TurnLemmas.

Context {T : Type} {TO : TimeOps T}.
Variable W : Type.
Variable B : Backend T W.

Lemma loop_iter_turn (L : Locals (T := T)) (d : T) (w : W) :
  exists k : turn T,
    result_of (loop_iter B L d w) = turn_result (frame_interval L) d k /\
    trace_of (loop_iter B L d w) = turn_events k /\
    turn_due d k.
Proof.
  unfold loop_iter, bind, ask, call, tell, ret, result_of, trace_of.
  destruct (is_set B w) as [stop w1]; destruct stop; cbn.
  - exists Stopped; cbn; auto.
  - destruct (time_time B w1) as [c w2]; cbn.
    destruct (t_geb c d) eqn:Hdue; cbn.
    + destruct (grab B (sct L) (monitor L) w2) as [[img|e] w3]; cbn.
      * destruct (write B (out L) (cvtColor_BGRA2BGR img) w3)
          as [[[]|e] w4]; cbn.
        -- exists (Wrote c img); cbn; auto.
        -- exists (WriteFailed c img e); cbn; auto.
      * exists (GrabFailed c e); cbn; auto.
    + exists (Slept c); cbn; auto.
Qed.

Lemma while_loop_S (fuel : nat) (L : Locals (T := T)) (d : T) (w : W) :
  while_loop B (S fuel) L d w =
  match loop_iter B L d w with
  | (Ok None, w1, l1) => (Ok d, w1, l1 ++ [])
  | (Ok (Some d'), w1, l1) =>
      let '(r, w2, l2) := while_loop B fuel L d' w1 in (r, w2, l1 ++ l2)
  | (Raise e, w1, l1) => (Raise e, w1, l1)
  | (OutOfFuel, w1, l1) => (OutOfFuel, w1, l1)
  end.
Proof.
  cbn [while_loop]; unfold bind.
  destruct (loop_iter B L d w) as [[[[d'|]|e|] w1] l1]; reflexivity.
Qed.

Lemma while_loop_turns (fuel : nat) (L : Locals (T := T)) :
  forall (d : T) (w : W),
  exists ks : list (turn T),
    Loop (frame_interval L) fuel d ks (result_of (while_loop B fuel L d w)) /\
    trace_of (while_loop B fuel L d w) = flat_map turn_events ks.
Proof.
  induction fuel as [|fuel IH]; intros d w.
  - exists []; split; [constructor | reflexivity].
  - destruct (loop_iter_turn L d w) as (k & Hr & Ht & Hd).
    rewrite while_loop_S.
    unfold result_of, trace_of in Hr, Ht.
    destruct (loop_iter B L d w) as [[r w1] l1]; cbn in Hr, Ht; subst r l1.
    destruct k as [|c img|c|c e|c img e]; cbn [turn_result].
    + exists [Stopped]; split; [apply Loop_stop | reflexivity].
    + destruct (IH (advance (frame_interval L) d c) w1) as (ks & Hl & Htr).
      unfold result_of, trace_of in *.
      destruct (while_loop B fuel L _ w1) as [[r w2] l2]; cbn in *.
      exists (Wrote c img :: ks); split; [apply Loop_wrote; assumption |].
      now rewrite Htr.
    + destruct (IH d w1) as (ks & Hl & Htr).
      unfold result_of, trace_of in *.
      destruct (while_loop B fuel L d w1) as [[r w2] l2]; cbn in *.
      exists (Slept c :: ks); split; [apply Loop_slept; assumption |].
      now rewrite Htr.
    + exists [GrabFailed c e]; split; [apply Loop_grab; assumption | reflexivity].
    + exists [WriteFailed c img e]; split; [apply Loop_write; assumption | reflexivity].
Qed.

End TurnLemmas.

Section Runs.

Context {T : Type} {TO : TimeOps T} {W : Type} (B : Backend T W).

Lemma initialise_cases (FPS : Z) (sct0 : handle) (w : W) :
  match result_of (initialise B FPS sct0 w) with
  | Ok (L, d0) =>
      FPS <> 0%Z /\
      sct L = sct0 /\
      frame_interval L = t_div t_one (t_of_int FPS) /\
      exists ms s,
        nth_error ms 1 = Some (monitor L) /\
        output_video L = os_path_join B (desktop B) (String.append s ".mp4") /\
        trace_of (initialise B FPS sct0 w) = init_trace ms s FPS L d0
  | Raise e => init_failed FPS e (trace_of (initialise B FPS sct0 w))
  | OutOfFuel => False
  end.
Proof.
  unfold initialise, bind, call, ask, tell, index, one_over, ret, raise,
    result_of, trace_of.
  destruct (mss_monitors B sct0 w) as [[ms|e] w1]; cbn; [|constructor].
  destruct ms as [|m0 [|m ms']]; cbn; [now constructor | now constructor |].
  destruct (strftime_now B w1) as [s w2]; cbn.
  destruct (VideoWriter B _ _ FPS _ w2) as [[o|e] w3]; cbn; [|constructor].
  destruct (FPS =? 0)%Z eqn:HF; cbn.
  - apply Z.eqb_eq in HF. now constructor.
  - apply Z.eqb_neq in HF.
    destruct (time_time B _) as [d0 w4]; cbn.
    repeat split; try assumption.
    exists (m0 :: m :: ms'), s. repeat split.
Qed.

Lemma record_screen_eq (fuel : nat) (FPS : Z) (w : W) :
  record_screen B fuel FPS w =
  match mss_enter B w with
  | (Raises e, w1) => (Raise e, w1, [EvMss (Raises e)])
  | (Returns sct0, w1) =>
      match initialise B FPS sct0 w1 with
      | (Ok (L, d0), w2, l0) =>
          match while_loop B fuel L d0 w2 with
          | (Ok _, w3, l1) =>
              (Ok tt,
               mss_exit B sct0
                 (print_saved B (output_video L) (release B (out L) w3)),
               EvMss (Returns sct0) ::
               (l0 ++ l1 ++ [EvRelease; EvPrintSaved (output_video L)]) ++
               [EvMssExit])
          | (Raise e, w3, l1) =>
              (Raise e, mss_exit B sct0 w3,
               EvMss (Returns sct0) :: (l0 ++ l1) ++ [EvMssExit])
          | (OutOfFuel, w3, l1) =>
              (OutOfFuel, w3, EvMss (Returns sct0) :: l0 ++ l1)
          end
      | (Raise e, w2, l0) =>
          (Raise e, mss_exit B sct0 w2,
           EvMss (Returns sct0) :: l0 ++ [EvMssExit])
      | (OutOfFuel, w2, l0) => (OutOfFuel, w2, EvMss (Returns sct0) :: l0)
      end
  end.
Proof.
  unfold record_screen, with_mss.
  destruct (mss_enter B w) as [[sct0|e] w1]; [|reflexivity].
  unfold bind at 1.
  destruct (initialise B FPS sct0 w1) as [[[[L d0]|e|] w2] l0]; try reflexivity.
  unfold bind, finish, tell.
  destruct (while_loop B fuel L d0 w2) as [[[d|e|] w3] l1]; reflexivity.
Qed.

Lemma record_screen_run (fuel : nat) (FPS : Z) (w : W) :
  Run fuel FPS (result_of (record_screen B fuel FPS w))
               (trace_of (record_screen B fuel FPS w)).
Proof.
  rewrite record_screen_eq.
  destruct (mss_enter B w) as [[sct0|e] w1]; [|constructor].
  pose proof (initialise_cases FPS sct0 w1) as Hi.
  unfold result_of, trace_of in Hi |- *.
  destruct (initialise B FPS sct0 w1) as [[[[L d0]|e|] w2] l0];
    cbn [fst snd] in Hi; [| |contradiction].
  - destruct Hi as (HF & _ & HI & ms & s & Hm & _ & Hl0); subst l0.
    destruct (while_loop_turns B fuel L d0 w2) as (ks & HL & Htr).
    unfold result_of, trace_of in *.
    destruct (while_loop B fuel L d0 w2) as [[r w3] l1];
      cbn [fst snd] in HL, Htr; subst l1.
    pose proof (@Run_loop T TO fuel FPS sct0 ms s L d0 ks r HF HI Hm HL) as HR.
    destruct r as [d|e|]; cbn [fst snd ends closing] in HR |- *.
    + rewrite <- !app_assoc. exact HR.
    + rewrite <- !app_assoc. exact HR.
    + rewrite app_nil_r in HR. exact HR.
  - cbn [fst snd]. now constructor.
Qed.

End Runs.

Section CountingLemmas.

Context {T : Type}.

Lemma count_app (p : event T -> bool) (l1 l2 : list (event T)) :
  count p (l1 ++ l2) = (count p l1 + count p l2)%nat.
Proof. unfold count. now rewrite filter_app, length_app. Qed.

Lemma count_cons (p : event T -> bool) (e : event T) (l : list (event T)) :
  count p (e :: l) = ((if p e then 1 else 0) + count p l)%nat.
Proof. unfold count; cbn. now destruct (p e). Qed.

Lemma split_at_first (A : Type) (x : A) (l1 l2 pre post : list A) :
  l1 ++ l2 = pre ++ x :: post -> ~ In x l1 ->
  exists pre', pre = l1 ++ pre' /\ l2 = pre' ++ x :: post.
Proof.
  revert pre; induction l1 as [|a l1 IH]; intros pre Heq Hn.
  - exists pre; auto.
  - destruct pre as [|a' pre]; cbn in Heq; injection Heq as Ha Heq.
    + subst a. exfalso; apply Hn; now left.
    + subst a'. destruct (IH pre Heq) as (pre' & -> & ->).
      * intros Hin; apply Hn; now right.
      * exists pre'; auto.
Qed.

End CountingLemmas.

Section TurnFacts.

Context {T : Type} {TO : TimeOps T}.

Lemma turn_events_loop_calls (k : turn T) (e : event T) :
  In e (turn_events k) -> is_loop_call e = true.
Proof.
  destruct k; cbn; intros H;
    repeat (destruct H as [<-|H]; [reflexivity|]); contradiction.
Qed.

Lemma turns_loop_calls (ks : list (turn T)) (e : event T) :
  In e (flat_map turn_events ks) -> is_loop_call e = true.
Proof.
  rewrite in_flat_map. intros (k & _ & H).
  exact (turn_events_loop_calls k e H).
Qed.

Lemma count_turns_none (p : event T -> bool) (ks : list (turn T)) :
  (forall e, is_loop_call e = true -> p e = false) ->
  count p (flat_map turn_events ks) = 0%nat.
Proof.
  intros Hp. unfold count.
  assert (Hnil : filter p (flat_map turn_events ks) = []).
  { induction ks as [|k ks IH]; [reflexivity|].
    cbn [flat_map]. rewrite filter_app, IH, app_nil_r.
    destruct k; cbn; rewrite ?Hp; reflexivity. }
  now rewrite Hnil.
Qed.

(** A capture that raises is the last call of the loop, and the loop ends
    with that exception. *)
Lemma Loop_grab_raises (I : T) (fuel : nat) (d : T) (ks : list (turn T))
      (r : outcome T) (e : exn) :
  Loop I fuel d ks r ->
  In (EvGrab (Raises e)) (flat_map turn_events ks) ->
  r = Raise e /\
  exists pre c,
    flat_map turn_events ks = pre ++ [EvIsSet false; EvTime c; EvGrab (Raises e)] /\
    count is_write pre = count is_write (flat_map turn_events ks).
Proof.
  induction 1 as [d|fuel d|fuel d c img ks r Hdue HL IH|fuel d c ks r Hdue HL IH
                  |fuel d c e'|fuel d c img e']; cbn [flat_map]; intros Hin.
  - contradiction.
  - cbn in Hin. intuition discriminate.
  - apply in_app_or in Hin. destruct Hin as [Hin|Hin].
    + cbn in Hin. intuition discriminate.
    + destruct (IH Hin) as (-> & pre & c' & Heq & Hc). split; [reflexivity|].
      exists (turn_events (Wrote c img) ++ pre), c'.
      rewrite Heq, <- app_assoc. split; [reflexivity|].
      rewrite <- Heq, !count_app. now rewrite Hc.
  - apply in_app_or in Hin. destruct Hin as [Hin|Hin].
    + cbn in Hin. intuition discriminate.
    + destruct (IH Hin) as (-> & pre & c' & Heq & Hc). split; [reflexivity|].
      exists (turn_events (Slept c) ++ pre), c'.
      rewrite Heq, <- app_assoc. split; [reflexivity|].
      rewrite <- Heq, !count_app. now rewrite Hc.
  - cbn in Hin.
    destruct Hin as [Hin|[Hin|[Hin|[]]]]; try discriminate.
    injection Hin as ->. split; [reflexivity|].
    exists [], c. split; reflexivity.
  - cbn in Hin. intuition discriminate.
Qed.

End TurnFacts.

(** ** Properties of the conversion *)

(** C9.  The conversion applied to a captured image before it is written,
    [cvtColor_BGRA2BGR], is a total function that drops the alpha sample of
    every pixel: the frame has as many rows as the image, every row is as
    wide, and at every position the B, G and R samples of the frame are
    those of the image. *)
Theorem cvtColor_drops_alpha_only (img : RawImage) :
  height (cvtColor_BGRA2BGR img) = height img /\
  (forall y, row_width (cvtColor_BGRA2BGR img) y = row_width img y) /\
  (forall y x,
      match pixel img y x, pixel (cvtColor_BGRA2BGR img) y x with
      | Some p, Some q => b3 q = b4 p /\ g3 q = g4 p /\ r3 q = r4 p
      | None, None => True
      | _, _ => False
      end).
Proof.
  unfold height, row_width, pixel, cvtColor_BGRA2BGR.
  assert (Hrow : forall y,
             nth y (map (map drop_alpha) img) [] = map drop_alpha (nth y img [])).
  { intros y. change (@nil bgr) with (map drop_alpha []). apply map_nth. }
  repeat split.
  - apply length_map.
  - intros y. rewrite Hrow. apply length_map.
  - intros y x. rewrite Hrow, nth_error_map.
    destruct (nth_error (nth y img []) x) as [p|]; cbn; auto.
Qed.

(** ** Properties of one turn and of a run, for any world *)

Section Claims.

Context {T : Type} {TO : TimeOps T} {W : Type} (B : Backend T W).

(** C1.  In a turn that writes a frame, the calls are: the flag check, the
    time reading [c], the capture, the write; and the deadline the next turn
    starts with is the old one plus [frame_interval], unless [c] minus that
    sum exceeds [frame_interval], in which case it is [c]. *)
Theorem written_frame_advances_deadline
        (L : Locals (T := T)) (d : T) (w : W) (f : Frame) :
  In (EvWrite f (Returns tt)) (trace_of (loop_iter B L d w)) ->
  exists c img,
    trace_of (loop_iter B L d w) =
      [EvIsSet false; EvTime c; EvGrab (Returns img); EvWrite f (Returns tt)] /\
    result_of (loop_iter B L d w) =
      Ok (Some (if t_gtb (t_sub c (t_add d (frame_interval L))) (frame_interval L)
                then c
                else t_add d (frame_interval L))).
Proof.
  destruct (loop_iter_turn B L d w) as (k & Hr & Ht & _).
  rewrite Hr, Ht. clear Hr Ht.
  destruct k as [|c img|c|c e|c img e]; cbn [turn_events turn_result]; intros Hin;
    cbn in Hin; try (intuition discriminate).
  destruct Hin as [Hin|[Hin|[Hin|[Hin|[]]]]]; try discriminate.
  injection Hin as <-.
  exists c, img. split; reflexivity.
Qed.

(** C8.  When the start-up succeeds, it has resolved the monitor, opened the
    writer, set [frame_interval] to [1.0 / FPS] and read the clock last; the
    loop then starts with that reading as its first deadline. *)
Theorem pacing_state_initialised
        (fuel : nat) (FPS : Z) (w0 w1 w2 : W) (sct0 : handle)
        (L : Locals (T := T)) (d0 : T) (l0 : list (event T)) :
  mss_enter B w0 = (Returns sct0, w1) ->
  initialise B FPS sct0 w1 = (Ok (L, d0), w2, l0) ->
  frame_interval L = t_div t_one (t_of_int FPS) /\
  (exists ms s p fourcc size o,
      l0 = [EvMonitors (Returns ms); EvStamp s;
            EvOpen p fourcc FPS size (Returns o);
            EvPrintStarted p; EvTime d0]) /\
  trace_of (record_screen B fuel FPS w0) =
    EvMss (Returns sct0) :: l0 ++
    trace_of (while_loop B fuel L d0 w2) ++
    closing (result_of (while_loop B fuel L d0 w2)) L.
Proof.
  intros Hm Hi.
  pose proof (initialise_cases B FPS sct0 w1) as Hc.
  rewrite record_screen_eq, Hm, Hi.
  rewrite Hi in Hc; unfold result_of, trace_of in Hc |- *; cbn [fst snd] in Hc.
  destruct Hc as (_ & _ & HI & ms & s & _ & _ & ->).
  split; [exact HI|]. split.
  - unfold init_trace. eauto 10.
  - destruct (while_loop B fuel L d0 w2) as [[[d|e|] w3] l1];
      cbn [fst snd closing]; rewrite <- ?app_assoc, ?app_nil_r; reflexivity.
Qed.


End Claims.

Section LoopFacts.

Context {T : Type} {TO : TimeOps T}.

(** Once a check has seen the flag, the loop makes no further call and
    returns. *)
Lemma Loop_stop_seen (I : T) (fuel : nat) (d : T) (ks : list (turn T))
      (r : outcome T) (tail pre post : list (event T)) :
  Loop I fuel d ks r ->
  flat_map turn_events ks ++ tail = pre ++ EvIsSet true :: post ->
  ~ In (EvIsSet true) tail ->
  (exists d', r = Ok d') /\ post = tail.
Proof.
  intros HL; revert pre.
  induction HL as [d|fuel d|fuel d c img ks r Hdue HL IH|fuel d c ks r Hdue HL IH
                   |fuel d c e|fuel d c img e]; intros pre Heq Hn.
  - cbn in Heq. exfalso; apply Hn. rewrite Heq. apply in_elt.
  - destruct pre as [|a pre]; cbn in Heq.
    + injection Heq as Heq. split; [eauto | now symmetry].
    + injection Heq as _ Heq. exfalso; apply Hn. rewrite Heq. apply in_elt.
  - cbn [flat_map] in Heq; rewrite <- app_assoc in Heq.
    apply split_at_first in Heq; [|cbn; intuition discriminate].
    destruct Heq as (pre' & _ & Heq). exact (IH pre' Heq Hn).
  - cbn [flat_map] in Heq; rewrite <- app_assoc in Heq.
    apply split_at_first in Heq; [|cbn; intuition discriminate].
    destruct Heq as (pre' & _ & Heq). exact (IH pre' Heq Hn).
  - cbn [flat_map] in Heq; rewrite <- app_assoc in Heq.
    apply split_at_first in Heq; [|cbn; intuition discriminate].
    destruct Heq as (pre' & _ & Heq). cbn in Heq.
    exfalso; apply Hn. rewrite Heq. apply in_elt.
  - cbn [flat_map] in Heq; rewrite <- app_assoc in Heq.
    apply split_at_first in Heq; [|cbn; intuition discriminate].
    destruct Heq as (pre' & _ & Heq). cbn in Heq.
    exfalso; apply Hn. rewrite Heq. apply in_elt.
Qed.

(** The fuel runs out only when every check found the flag clear. *)
Lemma Loop_out_of_fuel (I : T) (fuel : nat) (d : T) (ks : list (turn T))
      (r : outcome T) :
  Loop I fuel d ks r -> r = OutOfFuel ->
  count is_check (flat_map turn_events ks) = fuel /\
  ~ In (EvIsSet true) (flat_map turn_events ks).
Proof.
  induction 1 as [d|fuel d|fuel d c img ks r Hdue HL IH|fuel d c ks r Hdue HL IH
                  |fuel d c e|fuel d c img e]; intros Hr; try discriminate.
  - split; [reflexivity | intros []].
  - destruct (IH Hr) as (Hc & Hn). cbn [flat_map]. rewrite count_app, Hc.
    split; [reflexivity|].
    intros Hin; apply in_app_or in Hin; destruct Hin as [Hin|Hin];
      [cbn in Hin; intuition discriminate | auto].
  - destruct (IH Hr) as (Hc & Hn). cbn [flat_map]. rewrite count_app, Hc.
    split; [reflexivity|].
    intros Hin; apply in_app_or in Hin; destruct Hin as [Hin|Hin];
      [cbn in Hin; intuition discriminate | auto].
Qed.

End LoopFacts.

Section ExitPaths.

Context {T : Type} {TO : TimeOps T} {W : Type} (B : Backend T W).

Lemma count_init_trace (ms : list Monitor) (s : string) (FPS : Z)
      (L : Locals (T := T)) (d0 : T) :
  count is_open (init_trace ms s FPS L d0) = 1%nat /\
  count is_release (init_trace ms s FPS L d0) = 0%nat /\
  count is_check (init_trace ms s FPS L d0) = 0%nat.
Proof. repeat split. Qed.

(** C3, as the code has it.  When the loop was started, exactly one writer
    was opened; [out.release()] is called exactly once when the run returns
    and not at all when it ends with an exception. *)
Theorem writer_released_on_return_only (fuel : nat) (FPS : Z) (w : W) (b : bool) :
  In (EvIsSet b) (trace_of (record_screen B fuel FPS w)) ->
  count is_open (trace_of (record_screen B fuel FPS w)) = 1%nat /\
  count is_release (trace_of (record_screen B fuel FPS w)) =
    match result_of (record_screen B fuel FPS w) with
    | Ok _ => 1%nat
    | Raise _ => 0%nat
    | OutOfFuel => 0%nat
    end.
Proof.
  pose proof (record_screen_run B fuel FPS w) as HR.
  destruct HR as [e'|sct0 e' l0 Hf|sct0 ms s L d0 ks r HF HI Hm HL]; intros Hin.
  - cbn in Hin. intuition discriminate.
  - exfalso. destruct Hin as [Hin|Hin]; [discriminate|].
    apply in_app_or in Hin. destruct Hin as [Hin|Hin];
      [|cbn in Hin; intuition discriminate].
    destruct Hf; cbn in Hin; intuition discriminate.
  - rewrite !count_cons, !count_app.
    destruct (count_init_trace ms s FPS L d0) as (-> & -> & _).
    rewrite !count_turns_none by (intros [] ?; (discriminate || reflexivity)).
    destruct r; split; reflexivity.
Qed.

(** C4, as the code has it.  When a capture raises, no frame is written in
    that turn, the exception ends [record_screen], and the failed capture
    is the last call of the loop: only the capture object is closed after
    it, and the writer is not released. *)
Theorem capture_failure_ends_run (fuel : nat) (FPS : Z) (w : W) (e : exn) :
  In (EvGrab (Raises e)) (trace_of (record_screen B fuel FPS w)) ->
  result_of (record_screen B fuel FPS w) = Raise e /\
  exists pre c,
    trace_of (record_screen B fuel FPS w) =
      pre ++ [EvIsSet false; EvTime c; EvGrab (Raises e); EvMssExit] /\
    count is_write pre = count is_write (trace_of (record_screen B fuel FPS w)).
Proof.
  pose proof (record_screen_run B fuel FPS w) as HR.
  destruct HR as [e'|sct0 e' l0 Hf|sct0 ms s L d0 ks r HF HI Hm HL]; intros Hin.
  - cbn in Hin. intuition discriminate.
  - exfalso. destruct Hin as [Hin|Hin]; [discriminate|].
    apply in_app_or in Hin. destruct Hin as [Hin|Hin];
      [|cbn in Hin; intuition discriminate].
    destruct Hf; cbn in Hin; intuition discriminate.
  - destruct Hin as [Hin|Hin]; [discriminate|].
    apply in_app_or in Hin. destruct Hin as [Hin|Hin];
      [cbn in Hin; intuition discriminate|].
    apply in_app_or in Hin. destruct Hin as [Hin|Hin];
      [|destruct r; cbn in Hin; intuition discriminate].
    destruct (Loop_grab_raises e HL Hin) as (-> & pre & c & Heq & Hc).
    split; [reflexivity|].
    exists (EvMss (Returns sct0) :: init_trace ms s FPS L d0 ++ pre), c.
    rewrite Heq. cbn [closing]. split.
    + cbn [app]. rewrite <- !app_assoc. reflexivity.
    + rewrite <- Heq, !count_cons, !count_app, Hc. cbn. lia.
Qed.

(** The protocol of the stop flag, in any world. *)
Lemma stop_protocol :
  (forall (L : Locals (T := T)) (d : T) (w : W),
      exists b rest,
        trace_of (loop_iter B L d w) = EvIsSet b :: rest /\
        count is_check rest = 0%nat /\
        (count is_grab rest <= 1)%nat /\
        (count is_write rest + count is_sleep rest <= 1)%nat /\
        (b = true -> rest = [])) /\
  (forall fuel FPS w pre post,
      trace_of (record_screen B fuel FPS w) = pre ++ EvIsSet true :: post ->
      result_of (record_screen B fuel FPS w) = Ok tt /\
      exists p, post = [EvRelease; EvPrintSaved p; EvMssExit]) /\
  (forall fuel FPS w pre post,
      trace_of (record_screen B fuel FPS w) = pre ++ EvRelease :: post ->
      count is_grab post = 0%nat /\ count is_write post = 0%nat) /\
  (forall fuel FPS w,
      result_of (record_screen B fuel FPS w) = OutOfFuel ->
      count is_check (trace_of (record_screen B fuel FPS w)) = fuel /\
      ~ In (EvIsSet true) (trace_of (record_screen B fuel FPS w))).
Proof.
  split; [|split; [|split]].
  - intros L d w.
    destruct (loop_iter_turn B L d w) as (k & _ & -> & _).
    destruct k as [|c img|c|c e|c img e]; cbn [turn_events];
      eexists _, _; (split; [reflexivity|]); cbn;
      repeat split; try lia; try reflexivity; discriminate.
  - intros fuel FPS w pre post.
    pose proof (record_screen_run B fuel FPS w) as HR.
    destruct HR as [e'|sct0 e' l0 Hf|sct0 ms s L d0 ks r HF HI Hm HL]; intros Heq.
    + exfalso. assert (Hin : In (EvIsSet true) [EvMss (T := T) (Raises e')])
        by (rewrite Heq; apply in_elt).
      cbn in Hin. intuition discriminate.
    + exfalso.
      assert (Hin : In (EvIsSet true) (EvMss (Returns sct0) :: l0 ++ [EvMssExit]))
        by (rewrite Heq; apply in_elt).
      destruct Hin as [Hin|Hin]; [discriminate|].
      apply in_app_or in Hin. destruct Hin as [Hin|Hin];
        [|cbn in Hin; intuition discriminate].
      destruct Hf; cbn in Hin; intuition discriminate.
    + change (EvMss (Returns sct0) :: init_trace ms s FPS L d0 ++
              flat_map turn_events ks ++ closing r L)
        with ((EvMss (Returns sct0) :: init_trace ms s FPS L d0) ++
              flat_map turn_events ks ++ closing r L) in Heq.
      apply split_at_first in Heq; [|cbn; intuition discriminate].
      destruct Heq as (pre' & _ & Heq).
      assert (Hn : ~ In (EvIsSet true) (closing r L))
        by (destruct r; cbn; intuition discriminate).
      destruct (Loop_stop_seen _ _ _ HL Heq Hn) as ((d' & ->) & ->).
      split; [reflexivity|]. now exists (output_video L).
  - intros fuel FPS w pre post.
    pose proof (record_screen_run B fuel FPS w) as HR.
    destruct HR as [e'|sct0 e' l0 Hf|sct0 ms s L d0 ks r HF HI Hm HL]; intros Heq.
    + exfalso. assert (Hin : In EvRelease [EvMss (T := T) (Raises e')])
        by (rewrite Heq; apply in_elt).
      cbn in Hin. intuition discriminate.
    + exfalso.
      assert (Hin : In EvRelease (EvMss (T := T) (Returns sct0) :: l0 ++ [EvMssExit]))
        by (rewrite Heq; apply in_elt).
      destruct Hin as [Hin|Hin]; [discriminate|].
      apply in_app_or in Hin. destruct Hin as [Hin|Hin];
        [|cbn in Hin; intuition discriminate].
      destruct Hf; cbn in Hin; intuition discriminate.
    + change (EvMss (Returns sct0) :: init_trace ms s FPS L d0 ++
              flat_map turn_events ks ++ closing r L)
        with ((EvMss (Returns sct0) :: init_trace ms s FPS L d0) ++
              flat_map turn_events ks ++ closing r L) in Heq.
      apply split_at_first in Heq; [|cbn; intuition discriminate].
      destruct Heq as (pre1 & _ & Heq).
      apply split_at_first in Heq;
        [|intros Hin; apply turns_loop_calls in Hin; discriminate].
      destruct Heq as (pre2 & _ & Heq).
      destruct r as [d'|e'|]; cbn in Heq.
      * destruct pre2 as [|a [|a' [|a'' pre2]]]; cbn in Heq;
          try discriminate; try (destruct pre2; discriminate).
        injection Heq as <-. split; reflexivity.
      * destruct pre2 as [|a [|a' pre2]]; discriminate.
      * destruct pre2; discriminate.
  - intros fuel FPS w.
    pose proof (record_screen_run B fuel FPS w) as HR.
    destruct HR as [e'|sct0 e' l0 Hf|sct0 ms s L d0 ks r HF HI Hm HL];
      intros Hr; try discriminate.
    destruct r; try discriminate. cbn [closing]. rewrite app_nil_r.
    destruct (Loop_out_of_fuel HL eq_refl) as (Hc & Hn).
    rewrite count_cons, count_app, Hc.
    split; [reflexivity|].
    intros [Hin|Hin]; [discriminate|].
    apply in_app_or in Hin. destruct Hin as [Hin|Hin];
      [cbn in Hin; intuition discriminate | auto].
Qed.

End ExitPaths.

Lemma Q_geb_iff (a b : Q) : t_geb a b = true <-> b <= a.
Proof. cbn. apply Qle_bool_iff. Qed.

Lemma Q_gtb_iff (a b : Q) : t_gtb a b = true <-> b < a.
Proof.
  cbn. rewrite negb_true_iff. split; intros H.
  - apply Qnot_le_lt. intros Hle. apply Qle_bool_iff in Hle. congruence.
  - destruct (Qle_bool a b) eqn:E; [|reflexivity].
    apply Qle_bool_iff in E. exfalso. exact (Qlt_not_le _ _ H E).
Qed.


Lemma Q_gtb_false_iff (a b : Q) : t_gtb a b = false <-> a <= b.
Proof.
  split; intros H.
  - apply Qnot_lt_le. intros Hlt. apply Q_gtb_iff in Hlt. congruence.
  - destruct (t_gtb a b) eqn:E; [|reflexivity].
    apply Q_gtb_iff in E. exfalso. exact (Qlt_not_le _ _ E H).
Qed.

#[export] Instance TimeLaws_Q : TimeLaws Q.
Proof.
  split.
  - intros a. apply Q_geb_iff. apply Qle_refl.
  - intros a b c H1 H2. apply Q_geb_iff in H1, H2. apply Q_geb_iff.
    exact (Qle_trans _ _ _ H2 H1).
  - intros a i Hi. apply Q_gtb_iff in Hi. apply Q_geb_iff.
    change (t_of_int 0%Z) with 0%Q in Hi. change (t_add a i) with (a + i). lra.
  - intros a b i Hi H. apply Q_gtb_iff in Hi, H. apply Q_geb_iff.
    change (t_of_int 0%Z) with 0%Q in Hi. change (t_sub a b) with (a - b) in H. lra.
Defined.

Section Monotone.

Context {T : Type} {TO : TimeOps T} {TL : TimeLaws T}.

Lemma advance_geb (I d c : T) :
  t_gtb I (t_of_int 0) = true -> t_geb (advance I d c) d = true.
Proof.
  intros HI. unfold advance.
  destruct (t_gtb (t_sub c (t_add d I)) I) eqn:Hre.
  - apply geb_trans with (t_add d I).
    + now apply sub_gtb_geb with (i := I).
    + now apply add_pos_geb.
  - now apply add_pos_geb.
Qed.

Lemma Loop_monotone (I : T) (fuel : nat) (d : T) (ks : list (turn T))
      (r : outcome T) :
  t_gtb I (t_of_int 0) = true ->
  Loop I fuel d ks r -> forall d', r = Ok d' -> t_geb d' d = true.
Proof.
  intros HI.
  induction 1 as [d|fuel d|fuel d c img ks r Hdue HL IH|fuel d c ks r Hdue HL IH
                  |fuel d c e|fuel d c img e]; intros d' Hr; try discriminate.
  - injection Hr as <-. apply geb_refl.
  - apply geb_trans with (advance I d c); [exact (IH d' Hr)|].
    now apply advance_geb.
  - exact (IH d' Hr).
Qed.

Context {W : Type} (B : Backend T W).

(** C10.  With a positive [frame_interval], no turn of the loop hands a
    smaller deadline to the next turn than the one it started with, and
    the deadline a run of the loop ends with is not smaller than the one
    it started with. *)
Theorem deadline_never_moves_back (L : Locals (T := T)) (d : T) (w : W) :
  t_gtb (frame_interval L) (t_of_int 0) = true ->
  (forall d', result_of (loop_iter B L d w) = Ok (Some d') ->
              t_geb d' d = true) /\
  (forall fuel d', result_of (while_loop B fuel L d w) = Ok d' ->
                   t_geb d' d = true).
Proof.
  intros HI. split.
  - intros d'. destruct (loop_iter_turn B L d w) as (k & -> & _ & _).
    destruct k as [|c img|c|c e|c img e]; cbn [turn_result]; intros Hr;
      try discriminate; injection Hr as <-.
    + now apply advance_geb.
    + apply geb_refl.
  - intros fuel d' Hr.
    destruct (while_loop_turns B fuel L d w) as (ks & HL & _).
    exact (Loop_monotone HI HL Hr).
Qed.

End Monotone.

Section FrameTimeLemmas.

Context {T : Type} {TO : TimeOps T}.





End FrameTimeLemmas.

Section Bursts.

Lemma advance_bounds (I d c : Q) :
  0 < I -> d <= c ->
  d + I <= advance I d c /\ c - I <= advance I d c /\ advance I d c <= c + I.
Proof.
  intros HI Hdc. unfold advance.
  change (t_add d I) with (d + I).
  change (t_sub c (d + I)) with (c - (d + I)).
  destruct (t_gtb (c - (d + I)) I) eqn:Hre.
  - apply Q_gtb_iff in Hre. repeat split; lra.
  - apply Q_gtb_false_iff in Hre. repeat split; lra.
Qed.




End Bursts.

(** ** The loop in the healthy simulated world *)

Section NominalRun.

(** The flag is set at [stop]; the recorder starts at [t0] with rate
    [FPS]. *)
Variables (stop t0 : Q) (FPS : Z).
Hypothesis FPS_pos : (0 < FPS)%Z.
Hypothesis FPS_max : (FPS <= 1000)%Z.

Local Abbreviation F := (inject_Z FPS).
Local Abbreviation I := (t_div t_one (t_of_int FPS)).
Local Abbreviation s := (1 # 1000).
Local Abbreviation L := (nominal_locals FPS).
Local Abbreviation B := (Sim.backend (Sim.nominal stop)).

Lemma F_pos : 0 < F.
Proof. change 0 with (inject_Z 0). rewrite <- Zlt_Qlt. exact FPS_pos. Qed.


Lemma I_F : I * F == 1.
Proof.
  change (t_div t_one (t_of_int FPS)) with (1 / F).
  pose proof F_pos. field. lra.
Qed.

Lemma I_pos : 0 < I.
Proof.
  change (t_div t_one (t_of_int FPS)) with (1 * / F).
  pose proof (Qinv_lt_0_compat F F_pos). lra.
Qed.










End NominalRun.

(** ** The loop in a simulated world with slow captures *)

Section ScriptedRun.

(** The flag is set at [stop]; the recorder starts at [t0] with rate [FPS];
    capture number [n] takes [lat n], at most [Lmax]. *)
Variables (stop t0 Lmax : Q) (FPS : Z) (lat : nat -> Q).
Hypothesis FPS_pos : (0 < FPS)%Z.
Hypothesis lat_bounds : forall n, 0 <= lat n /\ lat n <= Lmax.

Local Abbreviation F := (inject_Z FPS).
Local Abbreviation I := (t_div t_one (t_of_int FPS)).
Local Abbreviation s := (1 # 1000).
Local Abbreviation L := (nominal_locals FPS).
Local Abbreviation B :=
  (Sim.backend (Sim.scripted stop lat (fun _ => true) (fun _ => true))).

Lemma scripted_iter (d : Q) (w : Sim.World) :
  loop_iter B L d w =
  if Qle_bool stop (Sim.clock w) then (Ok None, w, [EvIsSet true])
  else if Qle_bool d (Sim.clock w) then
    (Ok (Some (advance I d (Sim.clock w))), slow_wrote_world lat w,
     [EvIsSet false; EvTime (Sim.clock w); EvGrab (Returns Sim.blank);
      EvWrite (cvtColor_BGRA2BGR Sim.blank) (Returns tt)])
  else
    (Ok (Some d), Sim.do_sleep s w,
     [EvIsSet false; EvTime (Sim.clock w); EvSleep s]).
Proof.
  unfold loop_iter, bind, ask, call, tell, ret.
  cbn [is_set time_time grab write sleep Sim.backend Sim.flag Sim.stop_at
       Sim.scripted].
  destruct (Qle_bool stop (Sim.clock w)); [reflexivity|].
  cbn [t_geb TimeOps_Q].
  destruct (Qle_bool d (Sim.clock w)); reflexivity.
Qed.

Lemma scripted_loop (fuel : nat) :
  forall (d : Q) (w : Sim.World),
    on_time stop Lmax FPS d w -> (1 <= fuel)%nat ->
    (Sim.clock w < stop -> potential stop FPS d w <= inject_Z (Z.of_nat fuel)) ->
    exists d' w',
      result_of (while_loop B fuel L d w) = Ok d' /\
      world_of (while_loop B fuel L d w) = w' /\
      stop <= Sim.clock w' /\ Sim.clock w' < stop + Lmax + s /\
      Sim.released w' = Sim.released w.
Proof.
  pose proof (I_F FPS_pos) as HIF. pose proof (I_pos FPS_pos) as HI.
  pose proof (F_pos FPS_pos) as HF.
  induction fuel as [|fuel IH]; intros d w (Hb & Hc) Hfuel Hpot; [lia|].
  rewrite while_loop_S, scripted_iter.
  destruct (Qle_bool stop (Sim.clock w)) eqn:Hstop.
  - apply Qle_bool_iff in Hstop.
    exists d, w.
    exact (conj eq_refl (conj eq_refl (conj Hstop (conj Hc eq_refl)))).
  - assert (Hlt : Sim.clock w < stop).
    { apply Qnot_le_lt. intros Hle. apply Qle_bool_iff in Hle. congruence. }
    specialize (Hpot Hlt). unfold potential in Hpot.
    assert (HbF : (stop - d) * F > -1).
    { assert (H : (d - I) * F < stop * F) by (apply Qmult_lt_compat_r; assumption).
      lra. }
    assert (Hfuel' : (1 <= fuel)%nat).
    { destruct fuel as [|fuel']; [|lia].
      change (inject_Z (Z.of_nat 1)) with 1 in Hpot. lra. }
    assert (Hfq : inject_Z (Z.of_nat (S fuel)) == inject_Z (Z.of_nat fuel) + 1).
    { rewrite Nat2Z.inj_succ, <- Z.add_1_r, inject_Z_plus. reflexivity. }
    destruct (lat_bounds (Sim.grabs w)) as (Hl0 & Hl1).
    destruct (Qle_bool d (Sim.clock w)) eqn:Hdue.
    + apply Qle_bool_iff in Hdue.
      destruct (advance_bounds (I := I) HI Hdue) as (A1 & _ & A3).
      assert (HdF : (stop - advance I d (Sim.clock w)) * F <= (stop - (d + I)) * F).
      { apply Qmult_le_compat_r; lra. }
      destruct (IH (advance I d (Sim.clock w)) (slow_wrote_world lat w))
        as (d' & w' & Hr & Hw & Hs1 & Hs2 & Hrl).
      { split; cbn [slow_wrote_world Sim.clock]; lra. }
      { exact Hfuel'. }
      { intros _. unfold potential. cbn [slow_wrote_world Sim.clock]. lra. }
      unfold result_of, world_of in *.
      destruct (while_loop B fuel L (advance I d (Sim.clock w)) (slow_wrote_world lat w))
        as [[r w2] l2].
      cbn [fst snd] in *. subst r w2.
      exists d', w'.
      exact (conj eq_refl (conj eq_refl (conj Hs1 (conj Hs2 Hrl)))).
    + destruct (IH d (Sim.do_sleep s w))
        as (d' & w' & Hr & Hw & Hs1 & Hs2 & Hrl).
      { split; [assumption|]. cbn [Sim.do_sleep Sim.clock]. lra. }
      { exact Hfuel'. }
      { intros _. unfold potential. cbn [Sim.do_sleep Sim.clock]. lra. }
      unfold result_of, world_of in *.
      destruct (while_loop B fuel L d (Sim.do_sleep s w)) as [[r w2] l2].
      cbn [fst snd] in *. subst r w2.
      exists d', w'.
      exact (conj eq_refl (conj eq_refl (conj Hs1 (conj Hs2 Hrl)))).
Qed.

Lemma scripted_initialise :
  exists l0,
    initialise B FPS 0%nat (Sim.start t0) = (Ok (L, t0), opened_world t0, l0).
Proof.
  assert (HF : (FPS =? 0)%Z = false) by (apply Z.eqb_neq; lia).
  unfold initialise, bind, call, ask, tell, index, one_over, ret.
  cbn [Sim.backend Sim.scripted mss_monitors strftime_now VideoWriter
       print_started time_time Sim.screens Sim.stamp nth_error
       Sim.do_open Sim.writer_ok].
  rewrite HF. eexists. reflexivity.
Qed.

(** The run returns, and it does so less than one capture and one sleep
    after the flag was set. *)
Lemma scripted_run (fuel : nat) :
  t0 <= stop ->
  (stop - t0) * 1000 + (stop - t0) * F + 2 <= inject_Z (Z.of_nat fuel) ->
  result_of (Sim.run (Sim.scripted stop lat (fun _ => true) (fun _ => true))
                     fuel FPS t0) = Ok tt /\
  stop <= Sim.clock (world_of (Sim.run (Sim.scripted stop lat (fun _ => true)
                                                     (fun _ => true)) fuel FPS t0)) /\
  Sim.clock (world_of (Sim.run (Sim.scripted stop lat (fun _ => true)
                                             (fun _ => true)) fuel FPS t0)) <
    stop + Lmax + (1 # 1000) /\
  Sim.released (world_of (Sim.run (Sim.scripted stop lat (fun _ => true)
                                                (fun _ => true)) fuel FPS t0)) = 1%nat.
Proof.
  intros Hle Hfuel.
  pose proof (F_pos FPS_pos) as HF. pose proof (I_pos FPS_pos) as HI.
  destruct (lat_bounds 0) as (Hl0 & Hl1).
  assert (Hf1 : (1 <= fuel)%nat).
  { destruct fuel as [|fuel']; [|lia].
    change (inject_Z (Z.of_nat 0)) with 0 in Hfuel.
    assert (0 <= (stop - t0) * F) by (apply Qmult_le_0_compat; lra). lra. }
  destruct scripted_initialise as (l0 & Hinit).
  destruct (@scripted_loop fuel t0 (opened_world t0)) as (d' & w' & Hr & Hw & Hs1 & Hs2 & Hrl).
  { split; cbn [opened_world Sim.clock]; lra. }
  { exact Hf1. }
  { intros _. unfold potential. cbn [opened_world Sim.clock]. lra. }
  unfold Sim.run. rewrite record_screen_eq.
  change (mss_enter (Sim.backend (Sim.scripted stop lat (fun _ => true) (fun _ => true)))
                    (Sim.start t0))
    with (Returns (A := handle) 0%nat, Sim.start t0).
  cbv beta iota.
  rewrite Hinit.
  unfold result_of, world_of in Hr, Hw |- *.
  destruct (while_loop B fuel L t0 (opened_world t0)) as [[r w2] l2].
  cbn [fst snd] in Hr, Hw. subst r w2. cbn [fst snd].
  cbn [mss_exit print_saved release Sim.backend Sim.do_exit Sim.do_release
       Sim.clock Sim.released].
  rewrite Hrl.
  repeat split; assumption.
Qed.

End ScriptedRun.

(** ** The stop flag *)

(** C5.  In any world: (1) every turn checks the flag exactly once, first,
    and then makes at most one capture and either one write or one sleep; a
    turn that sees the flag set makes no other call; (2) after a check that
    saw the flag set, the run makes only the release, the print and the
    closing of the capture object, and returns; (3) nothing is captured or
    written after [out.release()]; (4) the run goes on only while every
    check finds the flag clear.  In the simulated world where the flag is set
    at [stop] and a capture takes at most [Lmax]: (5) the run returns, with
    the writer released once, less than [Lmax] plus the 1 ms sleep after
    [stop]. *)
Theorem stop_flag_checked_every_turn :
  (forall (T : Type) (TO : TimeOps T) (W : Type) (B : Backend T W),
    (forall (L : Locals (T := T)) (d : T) (w : W),
        exists b rest,
          trace_of (loop_iter B L d w) = EvIsSet b :: rest /\
          count is_check rest = 0%nat /\
          (count is_grab rest <= 1)%nat /\
          (count is_write rest + count is_sleep rest <= 1)%nat /\
          (b = true -> rest = [])) /\
    (forall fuel FPS w pre post,
        trace_of (record_screen B fuel FPS w) = pre ++ EvIsSet true :: post ->
        result_of (record_screen B fuel FPS w) = Ok tt /\
        exists p, post = [EvRelease; EvPrintSaved p; EvMssExit]) /\
    (forall fuel FPS w pre post,
        trace_of (record_screen B fuel FPS w) = pre ++ EvRelease :: post ->
        count is_grab post = 0%nat /\ count is_write post = 0%nat) /\
    (forall fuel FPS w,
        result_of (record_screen B fuel FPS w) = OutOfFuel ->
        count is_check (trace_of (record_screen B fuel FPS w)) = fuel /\
        ~ In (EvIsSet true) (trace_of (record_screen B fuel FPS w)))) /\
  (forall (FPS : Z) (stop t0 Lmax : Q) (lat : nat -> Q) (fuel : nat),
      (0 < FPS)%Z ->
      (forall n, 0 <= lat n /\ lat n <= Lmax) ->
      t0 <= stop ->
      (stop - t0) * 1000 + (stop - t0) * inject_Z FPS + 2 <= inject_Z (Z.of_nat fuel) ->
      result_of (Sim.run (Sim.scripted stop lat (fun _ => true) (fun _ => true))
                         fuel FPS t0) = Ok tt /\
      stop <= Sim.clock (world_of (Sim.run (Sim.scripted stop lat (fun _ => true)
                                                         (fun _ => true)) fuel FPS t0)) /\
      Sim.clock (world_of (Sim.run (Sim.scripted stop lat (fun _ => true)
                                                 (fun _ => true)) fuel FPS t0)) <
        stop + Lmax + (1 # 1000) /\
      Sim.released (world_of (Sim.run (Sim.scripted stop lat (fun _ => true)
                                                    (fun _ => true)) fuel FPS t0)) = 1%nat).
Proof.
  split.
  - intros T TO W B. exact (stop_protocol B).
  - intros FPS stop t0 Lmax lat fuel HF Hlat Hle Hfuel.
    exact (@scripted_run stop t0 Lmax FPS lat HF Hlat fuel Hle Hfuel).
Qed.

(** ** Catching up after a stall *)

Section CatchUp.

Context {W : Type} (B : Backend Q W).


End CatchUp.

(** ** The frame count over a simulated run *)


(** ** Runs that show where the code departs from the stated behaviour *)



(** C3 as stated fails when a write raises (here the second one): the run
    ends with that exception, one writer was opened and [release] was never
    called. *)
Lemma write_error_skips_release :
  result_of (Sim.run (Sim.write_fails (5 # 1000) 1) 50 1000 0) = Raise WriteError /\
  count is_open (trace_of (Sim.run (Sim.write_fails (5 # 1000) 1) 50 1000 0)) = 1%nat /\
  count is_release (trace_of (Sim.run (Sim.write_fails (5 # 1000) 1) 50 1000 0)) = 0%nat /\
  Sim.released (world_of (Sim.run (Sim.write_fails (5 # 1000) 1) 50 1000 0)) = 0%nat.
Proof. vm_compute. repeat split. Qed.

(** C4 as stated fails when a capture raises (here the second one): the run
    ends with that exception although the flag is not set, and no third
    capture is attempted. *)
Lemma capture_error_stops_recording :
  result_of (Sim.run (Sim.capture_fails (5 # 1000) 1) 50 1000 0) =
    Raise CaptureReadError /\
  count is_grab (trace_of (Sim.run (Sim.capture_fails (5 # 1000) 1) 50 1000 0)) = 2%nat /\
  Sim.flag (Sim.capture_fails (5 # 1000) 1)
           (world_of (Sim.run (Sim.capture_fails (5 # 1000) 1) 50 1000 0)) = false.
Proof. vm_compute. repeat split. Qed.

(** ** The theorems at concrete runs *)

(** A turn of the healthy world at 20 frames per second that writes. *)
Lemma written_frame_advances_deadline_at_start :
  exists c img,
    trace_of (loop_iter (Sim.backend (Sim.nominal 1)) (nominal_locals 20) 0 (Sim.start 0)) =
      [EvIsSet false; EvTime c; EvGrab (Returns img);
       EvWrite (cvtColor_BGRA2BGR Sim.blank) (Returns tt)] /\
    result_of (loop_iter (Sim.backend (Sim.nominal 1)) (nominal_locals 20) 0 (Sim.start 0)) =
      Ok (Some (if t_gtb (t_sub c (t_add 0 (frame_interval (nominal_locals 20))))
                         (frame_interval (nominal_locals 20))
                then c
                else t_add 0 (frame_interval (nominal_locals 20)))).
Proof.
  apply (written_frame_advances_deadline
           (Sim.backend (Sim.nominal 1)) (nominal_locals 20) 0 (Sim.start 0)
           (cvtColor_BGRA2BGR Sim.blank)).
  vm_compute. right; right; right; left; reflexivity.
Defined.

(** The start-up of the healthy world at 20 frames per second. *)
Lemma pacing_state_initialised_at_20 :
  frame_interval (nominal_locals 20) = t_div t_one (t_of_int 20) /\
  (exists ms s p fourcc size o,
      trace_of (initialise (Sim.backend (Sim.nominal 1)) 20 0%nat (Sim.start 0)) =
        [EvMonitors (Returns ms); EvStamp s; EvOpen p fourcc 20 size (Returns o);
         EvPrintStarted p; EvTime 0]) /\
  trace_of (record_screen (Sim.backend (Sim.nominal 1)) 3 20 (Sim.start 0)) =
    EvMss (Returns 0%nat) ::
    trace_of (initialise (Sim.backend (Sim.nominal 1)) 20 0%nat (Sim.start 0)) ++
    trace_of (while_loop (Sim.backend (Sim.nominal 1)) 3 (nominal_locals 20) 0
                         (opened_world 0)) ++
    closing (result_of (while_loop (Sim.backend (Sim.nominal 1)) 3 (nominal_locals 20) 0
                                   (opened_world 0)))
            (nominal_locals 20).
Proof.
  apply (@pacing_state_initialised
           Q TimeOps_Q Sim.World (Sim.backend (Sim.nominal 1)) 3 20
           (Sim.start 0) (Sim.start 0) (opened_world 0) 0%nat (nominal_locals 20) 0
           (trace_of (initialise (Sim.backend (Sim.nominal 1)) 20 0%nat (Sim.start 0)))).
  - reflexivity.
  - reflexivity.
Defined.


(** The flag is set from the start: the run returns at the first check. *)
Lemma writer_released_on_return_at_20 :
  count is_open (trace_of (record_screen (Sim.backend (Sim.nominal 0)) 5 20 (Sim.start 0))) =
    1%nat /\
  count is_release (trace_of (record_screen (Sim.backend (Sim.nominal 0)) 5 20 (Sim.start 0))) =
    match result_of (record_screen (Sim.backend (Sim.nominal 0)) 5 20 (Sim.start 0)) with
    | Ok _ => 1%nat
    | Raise _ => 0%nat
    | OutOfFuel => 0%nat
    end.
Proof.
  apply (writer_released_on_return_only
           (Sim.backend (Sim.nominal 0)) 5 20 (Sim.start 0) true).
  vm_compute. do 6 right. left. reflexivity.
Defined.

(** The first capture raises. *)
Lemma capture_failure_ends_run_at_20 :
  result_of (record_screen (Sim.backend (Sim.capture_fails 1 0)) 5 20 (Sim.start 0)) =
    Raise CaptureReadError /\
  exists pre c,
    trace_of (record_screen (Sim.backend (Sim.capture_fails 1 0)) 5 20 (Sim.start 0)) =
      pre ++ [EvIsSet false; EvTime c; EvGrab (Raises CaptureReadError); EvMssExit] /\
    count is_write pre =
    count is_write
      (trace_of (record_screen (Sim.backend (Sim.capture_fails 1 0)) 5 20 (Sim.start 0))).
Proof.
  apply (capture_failure_ends_run
           (Sim.backend (Sim.capture_fails 1 0)) 5 20 (Sim.start 0)).
  vm_compute. do 8 right. left. reflexivity.
Defined.

(** What follows the check that sees the flag, when it is set from the
    start. *)
Lemma stop_flag_checked_at_20 :
  result_of (record_screen (Sim.backend (Sim.nominal 0)) 5 20 (Sim.start 0)) = Ok tt /\
  exists p,
    skipn 7 (trace_of (record_screen (Sim.backend (Sim.nominal 0)) 5 20 (Sim.start 0))) =
      [EvRelease; EvPrintSaved p; EvMssExit].
Proof.
  apply (proj1 (proj2 (proj1 stop_flag_checked_every_turn Q TimeOps_Q Sim.World
                                     (Sim.backend (Sim.nominal 0))))
               5%nat 20%Z (Sim.start 0)
               (firstn 6 (trace_of (record_screen (Sim.backend (Sim.nominal 0)) 5 20
                                                  (Sim.start 0))))).
  reflexivity.
Defined.

(** The deadline over the healthy world at 20 frames per second. *)
Lemma deadline_never_moves_back_at_20 :
  (forall d',
      result_of (loop_iter (Sim.backend (Sim.nominal 1)) (nominal_locals 20) 0 (Sim.start 0)) =
        Ok (Some d') ->
      t_geb d' 0 = true) /\
  (forall fuel d',
      result_of (while_loop (Sim.backend (Sim.nominal 1)) fuel (nominal_locals 20) 0
                            (Sim.start 0)) = Ok d' ->
      t_geb d' 0 = true).
Proof.
  apply (deadline_never_moves_back
           (Sim.backend (Sim.nominal 1)) (nominal_locals 20) 0 (Sim.start 0)).
  reflexivity.
Defined.



(** * Further properties of [record_screen] *)

Section StartUp.

Context {T : Type} {TO : TimeOps T} {W : Type} (B : Backend T W).

(** The start-up, call by call: what it logs and how it ends, with the
    arguments the writer is opened with. *)
Lemma initialise_trace (FPS : Z) (sct0 : handle) (w : W) :
  (exists e,
      result_of (initialise B FPS sct0 w) = Raise e /\
      trace_of (initialise B FPS sct0 w) = [EvMonitors (Raises e)]) \/
  (exists ms,
      nth_error ms 1 = None /\
      result_of (initialise B FPS sct0 w) = Raise IndexError /\
      trace_of (initialise B FPS sct0 w) = [EvMonitors (Returns ms)]) \/
  (exists ms m s,
      nth_error ms 1 = Some m /\
      let p := os_path_join B (desktop B) (String.append s ".mp4") in
      let opened r :=
        EvOpen p (VideoWriter_fourcc "m" "p" "4" "v") FPS (m_width m, m_height m) r in
      (exists e,
          result_of (initialise B FPS sct0 w) = Raise e /\
          trace_of (initialise B FPS sct0 w) =
            [EvMonitors (Returns ms); EvStamp s; opened (Raises e)]) \/
      (exists o,
          FPS = 0%Z /\
          result_of (initialise B FPS sct0 w) = Raise ZeroDivisionError /\
          trace_of (initialise B FPS sct0 w) =
            [EvMonitors (Returns ms); EvStamp s; opened (Returns o);
             EvPrintStarted p]) \/
      (exists o d0,
          FPS <> 0%Z /\
          result_of (initialise B FPS sct0 w) =
            Ok (MkLocals sct0 m p o (t_div t_one (t_of_int FPS)), d0) /\
          trace_of (initialise B FPS sct0 w) =
            [EvMonitors (Returns ms); EvStamp s; opened (Returns o);
             EvPrintStarted p; EvTime d0])).
Proof.
  unfold initialise, bind, call, ask, tell, index, one_over, ret, raise,
    result_of, trace_of.
  destruct (mss_monitors B sct0 w) as [[ms|e] w1]; cbn; [|left; eauto].
  right.
  destruct ms as [|m0 [|m ms']]; cbn; [left; exists []; auto | left; exists [m0]; auto |].
  right. exists (m0 :: m :: ms'), m.
  destruct (strftime_now B w1) as [s w2]; cbn.
  exists s. split; [reflexivity|].
  destruct (VideoWriter B _ _ FPS _ w2) as [[o|e] w3]; cbn; [|left; eauto].
  right.
  destruct (FPS =? 0)%Z eqn:HF; cbn.
  - apply Z.eqb_eq in HF. left. exists o. auto.
  - apply Z.eqb_neq in HF. right.
    destruct (time_time B _) as [d0 w4]; cbn.
    exists o, d0. auto.
Qed.

(** A run, with the start-up kept as it is. *)
Lemma record_screen_parts (fuel : nat) (FPS : Z) (w : W) :
  match mss_enter B w with
  | (Raises e, _) =>
      result_of (record_screen B fuel FPS w) = Raise e /\
      trace_of (record_screen B fuel FPS w) = [EvMss (Raises e)]
  | (Returns sct0, w1) =>
      match result_of (initialise B FPS sct0 w1) with
      | Ok (L, d0) =>
          exists ks r,
            Loop (frame_interval L) fuel d0 ks r /\
            result_of (record_screen B fuel FPS w) = ends r /\
            trace_of (record_screen B fuel FPS w) =
              EvMss (Returns sct0) :: trace_of (initialise B FPS sct0 w1) ++
              flat_map turn_events ks ++ closing r L
      | Raise e =>
          result_of (record_screen B fuel FPS w) = Raise e /\
          trace_of (record_screen B fuel FPS w) =
            EvMss (Returns sct0) :: trace_of (initialise B FPS sct0 w1) ++ [EvMssExit]
      | OutOfFuel => False
      end
  end.
Proof.
  rewrite record_screen_eq.
  destruct (mss_enter B w) as [[sct0|e] w1]; [|split; reflexivity].
  pose proof (initialise_cases B FPS sct0 w1) as Hi.
  unfold result_of, trace_of in Hi |- *.
  destruct (initialise B FPS sct0 w1) as [[[[L d0]|e|] w2] l0];
    cbn [fst snd] in Hi |- *; [| split; reflexivity | contradiction].
  destruct (while_loop_turns B fuel L d0 w2) as (ks & HL & Htr).
  unfold result_of, trace_of in HL, Htr.
  destruct (while_loop B fuel L d0 w2) as [[r w3] l1]; cbn [fst snd] in HL, Htr.
  subst l1. exists ks, r. split; [exact HL|].
  destruct r as [d|e|]; cbn [fst snd ends closing];
    rewrite <- ?app_assoc, ?app_nil_r; split; reflexivity.
Qed.

End StartUp.

Section MoreExitPaths.

Context {T : Type} {TO : TimeOps T} {W : Type} (B : Backend T W).

(** X1.  The [with] block: when a run ends, by return or by exception, either
    [mss.mss()] raised and nothing else was called, or the capture object
    was closed exactly once, as the last call. *)
Theorem capture_object_closed_once (fuel : nat) (FPS : Z) (w : W) :
  result_of (record_screen B fuel FPS w) <> OutOfFuel ->
  (exists e, trace_of (record_screen B fuel FPS w) = [EvMss (Raises e)]) \/
  (exists sct0 pre,
      trace_of (record_screen B fuel FPS w) =
        EvMss (Returns sct0) :: pre ++ [EvMssExit] /\
      count is_mss_exit pre = 0%nat).
Proof.
  pose proof (record_screen_run B fuel FPS w) as HR.
  destruct HR as [e'|sct0 e' l0 Hf|sct0 ms s L d0 ks r HF HI Hm HL]; intros Hne.
  - left. eauto.
  - right. exists sct0, l0. split; [reflexivity|].
    destruct Hf; reflexivity.
  - right. destruct r as [d|e|]; cbn [ends closing] in Hne |- *.
    + exists sct0, (init_trace ms s FPS L d0 ++ flat_map turn_events ks ++
                    [EvRelease; EvPrintSaved (output_video L)]).
      split; [now rewrite <- !app_assoc|].
      rewrite !count_app, count_turns_none by (intros [] ?; (discriminate || reflexivity)).
      reflexivity.
    + exists sct0, (init_trace ms s FPS L d0 ++ flat_map turn_events ks).
      split; [now rewrite <- !app_assoc|].
      rewrite !count_app, count_turns_none by (intros [] ?; (discriminate || reflexivity)).
      reflexivity.
    + contradiction.
Qed.

(** X2.  With [FPS = 0] a run never enters the loop and never releases a
    writer: it ends with an exception, and when the writer had been opened
    by then the exception is the [ZeroDivisionError] of line 32. *)
Theorem zero_rate_never_records (fuel : nat) (w : W) :
  (exists e, result_of (record_screen B fuel 0 w) = Raise e) /\
  count is_loop_call (trace_of (record_screen B fuel 0 w)) = 0%nat /\
  count is_release (trace_of (record_screen B fuel 0 w)) = 0%nat /\
  (count is_open (trace_of (record_screen B fuel 0 w)) = 1%nat ->
   result_of (record_screen B fuel 0 w) = Raise ZeroDivisionError).
Proof.
  pose proof (record_screen_run B fuel 0 w) as HR.
  destruct HR as [e'|sct0 e' l0 Hf|sct0 ms s L d0 ks r HF HI Hm HL].
  - repeat split; eauto. discriminate.
  - split; [eauto|].
    destruct Hf as [|ms He Hn|ms s p sz|ms s p sz o He _]; cbn;
      repeat split; try discriminate.
    now subst e'.
  - now contradiction HF.
Qed.

(** X3.  When [sct.monitors] has fewer than two entries, line 19 raises
    [IndexError]: no writer is opened, nothing is captured, and the capture
    object is closed. *)
Theorem missing_primary_monitor (fuel : nat) (FPS : Z) (w : W) (ms : list Monitor) :
  In (EvMonitors (Returns ms)) (trace_of (record_screen B fuel FPS w)) ->
  (List.length ms < 2)%nat ->
  result_of (record_screen B fuel FPS w) = Raise IndexError /\
  exists sct0,
    trace_of (record_screen B fuel FPS w) =
      [EvMss (Returns sct0); EvMonitors (Returns ms); EvMssExit].
Proof.
  intros Hin Hlen.
  assert (Hnone : nth_error ms 1 = None) by (apply nth_error_None; lia).
  pose proof (record_screen_parts B fuel FPS w) as HP.
  destruct (mss_enter B w) as [[sct0|e] w1].
  - destruct (initialise_trace B FPS sct0 w1)
      as [(e & Hr & Ht)|[(ms' & Hn & Hr & Ht)|(ms' & m & s & Hm & Hrest)]].
    + rewrite Hr, Ht in HP. destruct HP as (_ & HP). rewrite HP in Hin.
      cbn in Hin. intuition discriminate.
    + rewrite Hr, Ht in HP. destruct HP as (HP1 & HP2). rewrite HP2 in Hin.
      cbn in Hin. destruct Hin as [Hin|[Hin|[Hin|[]]]]; try discriminate.
      injection Hin as <-. split; [exact HP1|]. now exists sct0.
    + exfalso.
      assert (Hms : In (EvMonitors (T := T) (Returns ms))
                       (trace_of (initialise B FPS sct0 w1)) -> ms = ms').
      { cbv zeta in Hrest.
        destruct Hrest as [(e & _ & Ht)|[(o & _ & _ & Ht)|(o & d0 & _ & _ & Ht)]];
          rewrite Ht; cbn; intros H;
          repeat (destruct H as [H|H]; [try discriminate; now injection H|]);
          contradiction. }
      assert (Hin' : In (EvMonitors (T := T) (Returns ms))
                        (trace_of (initialise B FPS sct0 w1))).
      { destruct (result_of (initialise B FPS sct0 w1)) as [[L d0]|e|];
          [destruct HP as (ks & r & _ & _ & HP)|destruct HP as (_ & HP)|contradiction];
          rewrite HP in Hin; destruct Hin as [Hin|Hin]; try discriminate;
          apply in_app_or in Hin; destruct Hin as [Hin|Hin]; try assumption.
        - apply in_app_or in Hin. destruct Hin as [Hin|Hin].
          + apply turns_loop_calls in Hin. discriminate.
          + destruct r; cbn in Hin; intuition discriminate.
        - cbn in Hin. intuition discriminate. }
      rewrite (Hms Hin') in Hnone. congruence.
  - destruct HP as (_ & HP). rewrite HP in Hin. cbn in Hin. intuition discriminate.
Qed.

End MoreExitPaths.

Section Frames.

Context {T : Type} {TO : TimeOps T}.

Lemma Loop_frames (I : T) (fuel : nat) (d : T) (ks : list (turn T)) (r : outcome T) :
  Loop I fuel d ks r ->
  written (flat_map turn_events ks) =
    map cvtColor_BGRA2BGR
        (firstn (List.length (written (flat_map turn_events ks)))
                (captured (flat_map turn_events ks))) /\
  (List.length (captured (flat_map turn_events ks)) <=
   S (List.length (written (flat_map turn_events ks))))%nat.
Proof.
  induction 1 as [d|fuel d|fuel d c img ks r Hdue HL IH|fuel d c ks r Hdue HL IH
                  |fuel d c e|fuel d c img e]; cbn [flat_map];
    try (split; [reflexivity | cbn; lia]).
  - destruct IH as (IH1 & IH2).
    change (written (turn_events (Wrote c img) ++ flat_map turn_events ks))
      with (cvtColor_BGRA2BGR img :: written (flat_map turn_events ks)).
    change (captured (turn_events (Wrote c img) ++ flat_map turn_events ks))
      with (img :: captured (flat_map turn_events ks)).
    cbn [List.length firstn map]. rewrite <- IH1. split; [reflexivity | lia].
  - exact IH.
Qed.

Context {W : Type} (B : Backend T W).

(** X4.  The frames the writer accepted are the conversions of the images
    captured, in the order of capture, none skipped and none repeated; at
    most one captured image (the last) was not written. *)
Theorem frames_are_converted_captures (fuel : nat) (FPS : Z) (w : W) :
  written (trace_of (record_screen B fuel FPS w)) =
    map cvtColor_BGRA2BGR
        (firstn (List.length (written (trace_of (record_screen B fuel FPS w))))
                (captured (trace_of (record_screen B fuel FPS w)))) /\
  (List.length (captured (trace_of (record_screen B fuel FPS w))) <=
   S (List.length (written (trace_of (record_screen B fuel FPS w)))))%nat.
Proof.
  pose proof (record_screen_run B fuel FPS w) as HR.
  destruct HR as [e'|sct0 e' l0 Hf|sct0 ms s L d0 ks r HF HI Hm HL].
  - split; [reflexivity | cbn; lia].
  - destruct Hf; split; try reflexivity; cbn; lia.
  - assert (Hw : written (EvMss (Returns sct0) :: init_trace ms s FPS L d0 ++
                          flat_map turn_events ks ++ closing r L) =
                 written (flat_map turn_events ks)).
    { unfold written. cbn [flat_map init_trace app].
      rewrite flat_map_app.
      replace (flat_map _ (closing r L)) with (@nil Frame) by (destruct r; reflexivity).
      now rewrite app_nil_r. }
    assert (Hc : captured (EvMss (Returns sct0) :: init_trace ms s FPS L d0 ++
                           flat_map turn_events ks ++ closing r L) =
                 captured (flat_map turn_events ks)).
    { unfold captured. cbn [flat_map init_trace app].
      rewrite flat_map_app.
      replace (flat_map _ (closing r L)) with (@nil RawImage) by (destruct r; reflexivity).
      now rewrite app_nil_r. }
    rewrite Hw, Hc. exact (Loop_frames HL).
Qed.

(** X8.  When the first check of the flag finds it set, nothing is captured,
    written or slept: the writer is opened and released once and the run
    returns. *)
Theorem flag_set_before_first_turn (fuel : nat) (FPS : Z) (w : W)
        (pre post : list (event T)) :
  trace_of (record_screen B fuel FPS w) = pre ++ EvIsSet true :: post ->
  count is_check pre = 0%nat ->
  result_of (record_screen B fuel FPS w) = Ok tt /\
  count is_grab (trace_of (record_screen B fuel FPS w)) = 0%nat /\
  count is_write (trace_of (record_screen B fuel FPS w)) = 0%nat /\
  count is_sleep (trace_of (record_screen B fuel FPS w)) = 0%nat /\
  count is_open (trace_of (record_screen B fuel FPS w)) = 1%nat /\
  count is_release (trace_of (record_screen B fuel FPS w)) = 1%nat.
Proof.
  pose proof (record_screen_run B fuel FPS w) as HR.
  destruct HR as [e'|sct0 e' l0 Hf|sct0 ms s L d0 ks r HF HI Hm HL]; intros Heq Hpre.
  - exfalso. assert (Hin : In (EvIsSet true) [EvMss (T := T) (Raises e')])
      by (rewrite Heq; apply in_elt).
    cbn in Hin. intuition discriminate.
  - exfalso.
    assert (Hin : In (EvIsSet true) (EvMss (Returns sct0) :: l0 ++ [EvMssExit]))
      by (rewrite Heq; apply in_elt).
    destruct Hin as [Hin|Hin]; [discriminate|].
    apply in_app_or in Hin. destruct Hin as [Hin|Hin];
      [|cbn in Hin; intuition discriminate].
    destruct Hf; cbn in Hin; intuition discriminate.
  - change (EvMss (Returns sct0) :: init_trace ms s FPS L d0 ++
            flat_map turn_events ks ++ closing r L)
      with ((EvMss (Returns sct0) :: init_trace ms s FPS L d0) ++
            flat_map turn_events ks ++ closing r L) in Heq.
    apply split_at_first in Heq; [|cbn; intuition discriminate].
    destruct Heq as (pre' & -> & Heq).
    rewrite count_app in Hpre.
    assert (Hpre' : count is_check pre' = 0%nat) by lia. clear Hpre.
    assert (Hks : ks = [Stopped] /\ exists d', r = Ok d').
    { inversion HL as [d|fuel' d|fuel' d c img ks' r' Hdue HL'|fuel' d c ks' r' Hdue HL'
                       |fuel' d c e|fuel' d c img e]; subst; cbn [flat_map] in Heq.
      - exfalso. cbn in Heq. destruct pre'; discriminate.
      - eauto.
      - exfalso. destruct pre' as [|a pre']; cbn in Heq; [discriminate|].
        injection Heq as <- _. cbn in Hpre'. discriminate.
      - exfalso. destruct pre' as [|a pre']; cbn in Heq; [discriminate|].
        injection Heq as <- _. cbn in Hpre'. discriminate.
      - exfalso. destruct pre' as [|a pre']; cbn in Heq; [discriminate|].
        injection Heq as <- _. cbn in Hpre'. discriminate.
      - exfalso. destruct pre' as [|a pre']; cbn in Heq; [discriminate|].
        injection Heq as <- _. cbn in Hpre'. discriminate. }
    destruct Hks as (-> & d' & ->). repeat split.
Qed.

(** X9.  When a run announces the saved file, that path is the desktop
    folder joined with the start-up time stamp and [".mp4"]; it is the path
    the writer was opened with and the one announced at the start, and the
    writer was opened with the codec [mp4v], the rate [FPS] and the width
    and height of [sct.monitors[1]]. *)
Theorem announced_file_is_the_opened_one (fuel : nat) (FPS : Z) (w : W) (p : string) :
  In (EvPrintSaved p) (trace_of (record_screen B fuel FPS w)) ->
  exists sct0 ms m s o d0 rest,
    nth_error ms 1 = Some m /\
    p = os_path_join B (desktop B) (String.append s ".mp4") /\
    trace_of (record_screen B fuel FPS w) =
      [EvMss (Returns sct0); EvMonitors (Returns ms); EvStamp s;
       EvOpen p (VideoWriter_fourcc "m" "p" "4" "v") FPS (m_width m, m_height m)
              (Returns o);
       EvPrintStarted p; EvTime d0] ++ rest.
Proof.
  intros Hin.
  pose proof (record_screen_parts B fuel FPS w) as HP.
  destruct (mss_enter B w) as [[sct0|e] w1];
    [|destruct HP as (_ & HP); rewrite HP in Hin; cbn in Hin; intuition discriminate].
  destruct (initialise_trace B FPS sct0 w1)
    as [(e & Hr & Ht)|[(ms' & Hn & Hr & Ht)|(ms & m & s & Hm & Hrest)]].
  - exfalso. rewrite Hr, Ht in HP. destruct HP as (_ & HP). rewrite HP in Hin.
    cbn in Hin. intuition discriminate.
  - exfalso. rewrite Hr, Ht in HP. destruct HP as (_ & HP). rewrite HP in Hin.
    cbn in Hin. intuition discriminate.
  - cbv zeta in Hrest.
    destruct Hrest as [(e & Hr & Ht)|[(o & _ & Hr & Ht)|(o & d0 & _ & Hr & Ht)]];
      rewrite Hr, Ht in HP.
    + exfalso. destruct HP as (_ & HP). rewrite HP in Hin.
      cbn in Hin. intuition discriminate.
    + exfalso. destruct HP as (_ & HP). rewrite HP in Hin.
      cbn in Hin. intuition discriminate.
    + destruct HP as (ks & r & HL & _ & HP). rewrite HP in Hin |- *.
      assert (Hp : p = os_path_join B (desktop B) (String.append s ".mp4")).
      { destruct Hin as [Hin|Hin]; [discriminate|].
        apply in_app_or in Hin. destruct Hin as [Hin|Hin];
          [cbn in Hin; intuition discriminate|].
        apply in_app_or in Hin. destruct Hin as [Hin|Hin];
          [apply turns_loop_calls in Hin; discriminate|].
        destruct r; cbn in Hin; try (intuition discriminate).
        destruct Hin as [Hin|[Hin|[Hin|[]]]]; try discriminate.
        now injection Hin as <-. }
      subst p.
      exists sct0, ms, m, s, o, d0, (flat_map turn_events ks ++
        closing r (MkLocals sct0 m (os_path_join B (desktop B) (String.append s ".mp4"))
                            o (t_div t_one (t_of_int FPS)))).
      split; [exact Hm|]. split; reflexivity.
Qed.

End Frames.

Section Schedule.


Context {W : Type} (B : Backend Q W).



End Schedule.

Section HealthySchedule.

Variables (stop t0 : Q) (FPS : Z).
Hypothesis FPS_pos : (0 < FPS)%Z.
Hypothesis FPS_max : (FPS <= 1000)%Z.

Local Abbreviation F := (inject_Z FPS).
Local Abbreviation I := (t_div t_one (t_of_int FPS)).
Local Abbreviation s := (1 # 1000).
Local Abbreviation L := (nominal_locals FPS).
Local Abbreviation B := (Sim.backend (Sim.nominal stop)).





End HealthySchedule.


(** ** The further properties at concrete runs *)

(** A run that ends with the exception of a failed write. *)
Lemma capture_object_closed_after_write_error :
  (exists e,
      trace_of (record_screen (Sim.backend (Sim.write_fails (5 # 1000) 1)) 50 1000
                              (Sim.start 0)) = [EvMss (Raises e)]) \/
  (exists sct0 pre,
      trace_of (record_screen (Sim.backend (Sim.write_fails (5 # 1000) 1)) 50 1000
                              (Sim.start 0)) =
        EvMss (Returns sct0) :: pre ++ [EvMssExit] /\
      count is_mss_exit pre = 0%nat).
Proof.
  apply (@capture_object_closed_once
           Q TimeOps_Q Sim.World (Sim.backend (Sim.write_fails (5 # 1000) 1)) 50 1000
           (Sim.start 0)).
  vm_compute. discriminate.
Defined.

(** A display list with one entry. *)
Lemma missing_primary_monitor_in_single_monitor_world :
  result_of (record_screen (Sim.backend single_monitor_world) 5 20 (Sim.start 0)) =
    Raise IndexError /\
  exists sct0,
    trace_of (record_screen (Sim.backend single_monitor_world) 5 20 (Sim.start 0)) =
      [EvMss (Returns sct0); EvMonitors (Returns [Sim.primary]); EvMssExit].
Proof.
  apply (@missing_primary_monitor
           Q TimeOps_Q Sim.World (Sim.backend single_monitor_world) 5 20 (Sim.start 0)
           [Sim.primary]).
  - vm_compute. right; left; reflexivity.
  - vm_compute. lia.
Defined.




(** The flag is set before the recorder starts. *)
Lemma flag_set_before_first_turn_at_20 :
  result_of (record_screen (Sim.backend (Sim.nominal 0)) 5 20 (Sim.start 0)) = Ok tt /\
  count is_grab (trace_of (record_screen (Sim.backend (Sim.nominal 0)) 5 20 (Sim.start 0))) =
    0%nat /\
  count is_write (trace_of (record_screen (Sim.backend (Sim.nominal 0)) 5 20 (Sim.start 0))) =
    0%nat /\
  count is_sleep (trace_of (record_screen (Sim.backend (Sim.nominal 0)) 5 20 (Sim.start 0))) =
    0%nat /\
  count is_open (trace_of (record_screen (Sim.backend (Sim.nominal 0)) 5 20 (Sim.start 0))) =
    1%nat /\
  count is_release (trace_of (record_screen (Sim.backend (Sim.nominal 0)) 5 20 (Sim.start 0))) =
    1%nat.
Proof.
  apply (@flag_set_before_first_turn
           Q TimeOps_Q Sim.World (Sim.backend (Sim.nominal 0)) 5 20 (Sim.start 0)
           (firstn 6 (trace_of (record_screen (Sim.backend (Sim.nominal 0)) 5 20
                                                     (Sim.start 0))))
           (skipn 7 (trace_of (record_screen (Sim.backend (Sim.nominal 0)) 5 20
                                                     (Sim.start 0))))).
  - reflexivity.
  - reflexivity.
Defined.

(** The file the healthy world announces. *)
Lemma announced_file_at_20 :
  exists sct0 ms m s o d0 rest,
    nth_error ms 1 = Some m /\
    "Desktop/2025-01-01_00-00-00.mp4" =
      os_path_join (Sim.backend (Sim.nominal 0)) (desktop (Sim.backend (Sim.nominal 0)))
                   (String.append s ".mp4") /\
    trace_of (record_screen (Sim.backend (Sim.nominal 0)) 5 20 (Sim.start 0)) =
      [EvMss (Returns sct0); EvMonitors (Returns ms); EvStamp s;
       EvOpen "Desktop/2025-01-01_00-00-00.mp4" (VideoWriter_fourcc "m" "p" "4" "v") 20
              (m_width m, m_height m) (Returns o);
       EvPrintStarted "Desktop/2025-01-01_00-00-00.mp4"; EvTime d0] ++ rest.
Proof.
  apply (@announced_file_is_the_opened_one
           Q TimeOps_Q Sim.World (Sim.backend (Sim.nominal 0)) 5 20 (Sim.start 0)).
  vm_compute. do 8 right. left. reflexivity.
Defined.

(** * The index generator: lemmas and theorems *)

Module DemoFacts.
Import Demo.

(** ** The sort *)

Section Sorting.

Context {A : Type} (key : A -> string).

Lemma insert_by_perm (x : A) (l : list A) :
  Permutation (insert_by key x l) (x :: l).
Proof.
  induction l as [|y r IH]; cbn; [reflexivity|].
  destruct (String.leb (key x) (key y)); [reflexivity|].
  rewrite IH. apply perm_swap.
Qed.

Lemma sort_by_perm (l : list A) : Permutation (sort_by key l) l.
Proof.
  induction l as [|x r IH]; cbn; [reflexivity|].
  rewrite insert_by_perm. now constructor.
Qed.

Lemma sort_by_length (l : list A) : List.length (sort_by key l) = List.length l.
Proof. apply Permutation_length, sort_by_perm. Qed.

Lemma insert_by_sorted (x : A) (l : list A) :
  Sorted (key_le key) l -> Sorted (key_le key) (insert_by key x l).
Proof.
  induction l as [|y r IH]; intros Hs; cbn.
  - repeat constructor.
  - destruct (String.leb (key x) (key y)) eqn:E.
    + constructor; [exact Hs|]. constructor. exact E.
    + inversion Hs as [|? ? Hr Hhd]; subst.
      constructor; [now apply IH|].
      assert (Hyx : key_le key y x).
      { destruct (String.leb_total (key x) (key y)) as [H|H]; [congruence|exact H]. }
      destruct r as [|z r']; cbn.
      * constructor. exact Hyx.
      * destruct (String.leb (key x) (key z)); constructor; [exact Hyx|].
        now inversion Hhd.
Qed.

Lemma sort_by_sorted (l : list A) : Sorted (key_le key) (sort_by key l).
Proof.
  induction l as [|x r IH]; cbn; [constructor|].
  now apply insert_by_sorted.
Qed.

End Sorting.

(** ** The dict built by the scan *)

Lemma entries_app (d1 d2 : html_files) :
  entries (d1 ++ d2) = entries d1 ++ entries d2.
Proof. unfold entries. apply flat_map_app. Qed.

Lemma append_to_entries (folder : string) (x : file_info) (d : html_files) :
  Permutation (entries (append_to folder x d)) (entries d ++ [(folder, x)]).
Proof.
  induction d as [|[k v] rest IH]; cbn; [reflexivity|].
  destruct (String.eqb_spec k folder) as [->|Hne]; cbn.
  - rewrite map_app. cbn. rewrite <- !app_assoc.
    apply Permutation_app_head. apply Permutation_app_comm.
  - rewrite <- app_assoc. apply Permutation_app_head. exact IH.
Qed.

Lemma append_to_keys (folder : string) (x : file_info) (d : html_files) :
  map fst (append_to folder x d) =
  if existsb (String.eqb folder) (map fst d) then map fst d
  else map fst d ++ [folder].
Proof.
  induction d as [|[k v] rest IH]; cbn; [reflexivity|].
  rewrite (String.eqb_sym folder k).
  destruct (String.eqb k folder); cbn; [reflexivity|].
  rewrite IH. now destruct (existsb (String.eqb folder) (map fst rest)).
Qed.

Lemma append_to_nonempty (folder : string) (x : file_info) (d : html_files) :
  Forall (fun kv => snd kv <> []) d ->
  Forall (fun kv => snd kv <> []) (append_to folder x d).
Proof.
  induction d as [|[k v] rest IH]; intros H; cbn.
  - constructor; [discriminate|constructor].
  - inversion H as [|? ? Hv Hrest]; subst.
    destruct (String.eqb k folder).
    + constructor; [|exact Hrest]. cbn. now destruct v.
    + constructor; [exact Hv|now apply IH].
Qed.

Lemma scan_step_cases (sep : string) (d : html_files) (p : rel_path) :
  (listed sep p = [] /\ scan_step sep d p = d) \/
  (exists f, listed sep p = [(str_path sep (path_parent p), f)] /\
             str_path sep (path_parent p) <> "." /\
             scan_step sep d p = append_to (str_path sep (path_parent p)) f d).
Proof.
  unfold scan_step, listed.
  destruct (path_parent p) as [|c cs] eqn:Hp.
  - left. cbn. split; [reflexivity|].
    now destruct (String.eqb (path_name p) "index.html").
  - rewrite andb_false_r.
    destruct (String.eqb_spec (str_path sep (c :: cs)) ".") as [E|E].
    + left. now split.
    + right. eexists. split; [reflexivity|]. now split.
Qed.

Lemma scan_entries (sep : string) (found : list rel_path) (d : html_files) :
  Permutation (entries (fold_left (scan_step sep) found d))
              (entries d ++ flat_map (listed sep) found).
Proof.
  revert d. induction found as [|p r IH]; intros d; cbn.
  - now rewrite app_nil_r.
  - rewrite IH.
    destruct (scan_step_cases sep d p) as [[Hl Hs]|[f [Hl [_ Hs]]]];
      rewrite Hl, Hs; cbn; [reflexivity|].
    rewrite append_to_entries, <- app_assoc. reflexivity.
Qed.

Lemma scan_keys (sep : string) (found : list rel_path) (d : html_files) :
  NoDup (map fst d) -> Forall (fun kv => fst kv <> "." /\ snd kv <> []) d ->
  NoDup (map fst (fold_left (scan_step sep) found d)) /\
  Forall (fun kv => fst kv <> "." /\ snd kv <> []) (fold_left (scan_step sep) found d).
Proof.
  revert d. induction found as [|p r IH]; intros d Hnd Hall; cbn; [now split|].
  apply IH.
  - destruct (scan_step_cases sep d p) as [[_ Hs]|[f [_ [_ Hs]]]]; rewrite Hs;
      [exact Hnd|].
    rewrite append_to_keys.
    destruct (existsb (String.eqb (str_path sep (path_parent p))) (map fst d)) eqn:E;
      [exact Hnd|].
    apply NoDup_app; [exact Hnd|repeat constructor; intros []|].
    intros k Hin [Ek|[]]. subst k.
    assert (existsb (String.eqb (str_path sep (path_parent p))) (map fst d) = true);
      [|congruence].
    apply existsb_exists. eexists. split; [exact Hin|apply String.eqb_refl].
  - destruct (scan_step_cases sep d p) as [[_ Hs]|[f [_ [Hne Hs]]]]; rewrite Hs;
      [exact Hall|].
    clear Hs IH Hnd. induction d as [|[k v] rest IHd]; cbn.
    + constructor; [split; [exact Hne|discriminate]|constructor].
    + inversion Hall as [|? ? [Hk Hv] Hrest]; subst.
      destruct (String.eqb k (str_path sep (path_parent p))).
      * constructor; [|exact Hrest]. split; [exact Hk|]. cbn. now destruct v.
      * constructor; [now split|now apply IHd].
Qed.

Lemma entries_sorted_perm (d : html_files) :
  Permutation (entries (map (fun kv => (fst kv, sort_by name (snd kv))) d)) (entries d).
Proof.
  induction d as [|[k v] rest IH]; cbn; [reflexivity|].
  apply Permutation_app; [|exact IH].
  apply Permutation_map, sort_by_perm.
Qed.

Lemma total_files_entries (d : html_files) :
  total_files d = List.length (entries d).
Proof.
  induction d as [|[k v] rest IH]; cbn; [reflexivity|].
  rewrite length_app, length_map. unfold total_files in IH. now rewrite IH.
Qed.

Lemma lookup_key (d : html_files) (k : string) :
  In k (map fst d) -> exists v, lookup k d = Some v /\ In (k, v) d.
Proof.
  induction d as [|[k' v'] rest IH]; cbn; [intros []|].
  intros Hin. destruct (String.eqb_spec k' k) as [->|Hne].
  - exists v'. split; [reflexivity|now left].
  - destruct Hin as [E|Hin]; [contradiction|].
    destruct (IH Hin) as [v [Hv Hi]]. exists v. split; [exact Hv|now right].
Qed.

(** ** Every run of [main] has one of the shapes *)

Section Runs.

Context {W : Type} (B : Backend W).
Variable generate_html : html_files -> string -> string.
Variable commit_message : string -> nat -> nat -> string.

Lemma git_operations_run (d : html_files) (w : W) :
  GitRun commit_message d (ended (git_operations B commit_message d w))
         (logged (git_operations B commit_message d w)).
Proof.
  unfold git_operations, ended, logged, bind, call, print, now.
  destruct (run_git B GitAdd w) as [[c1|e1] w1]; cbn; [|apply GR_add_raises].
  destruct (Z.eqb_spec (returncode c1) 0) as [H1|H1]; cbn;
    [|now apply GR_add_failed].
  destruct (strftime_now B w1) as [stamp w2]; cbn.
  destruct (run_git B _ w2) as [[c2|e2] w3]; cbn;
    [|now apply GR_commit_raises].
  destruct (Z.eqb_spec (returncode c2) 0) as [H2|H2]; cbn.
  - destruct (run_git B GitPush w3) as [[c3|e3] w4]; cbn;
      [|now apply GR_push_raises].
    destruct (Z.eqb_spec (returncode c3) 0) as [H3|H3]; cbn.
    + now apply GR_pushed.
    + now apply GR_push_failed.
  - destruct (String.index 0 "nothing to commit" (stdout c2)) as [n|] eqn:E; cbn.
    + now apply GR_nothing_to_commit with (n := n).
    + now apply GR_commit_failed.
Qed.

Lemma for_each_lines (d : html_files) (keys : list string) (w : W) :
  (forall k, In k keys -> In k (map fst d)) ->
  for_each keys
           (fun folder =>
              match lookup folder d with
              | Some files => print (MsgFolder folder (List.length files))
              | None => raise (KeyError folder)
              end) w =
  (Ok tt, w,
   map (fun k => EvPrint (MsgFolder k (match lookup k d with
                                       | Some files => List.length files
                                       | None => 0%nat
                                       end))) keys).
Proof.
  induction keys as [|k r IH]; intros Hin; cbn; [reflexivity|].
  destruct (lookup_key d k (Hin k (or_introl eq_refl))) as [v [Hv _]].
  unfold bind. rewrite Hv. cbn.
  rewrite IH; [reflexivity|]. intros k' Hk'. apply Hin. now right.
Qed.

Lemma try_git_run (body : @M W unit) (w : W) :
  ended (try_git body w) = handled (ended (body w)) /\
  logged (try_git body w) = logged (body w) ++ report (ended (body w)).
Proof.
  unfold try_git, ended, logged.
  destruct (body w) as [[[[]|[m|m|k|]] w1] l1]; cbn;
    now rewrite ?app_nil_r.
Qed.

Lemma main_cases (w w' : W) (r : outcome unit) (l : list event) :
  main B generate_html commit_message w = (r, w', l) ->
  MainRun B generate_html commit_message r l.
Proof.
  unfold main, scan_html_files.
  unfold bind at 1. unfold print at 1. cbv beta iota.
  unfold bind at 1. unfold bind at 1. unfold call at 1.
  destruct (rglob_html B w) as [[found|e] w1]; cbv beta iota.
  2:{ intros H. injection H as <- _ <-. apply MR_scan_raises. }
  unfold ret at 1. cbv beta iota.
  destruct (organise (os_sep B) found) as [|kv d'] eqn:Hd.
  { unfold print. intros H. injection H as <- _ <-. now apply MR_no_files. }
  rewrite <- Hd.
  assert (Hne : organise (os_sep B) found <> []) by (rewrite Hd; discriminate).
  clear Hd kv d'.
  unfold bind at 1. unfold print at 1. cbv beta iota.
  unfold bind at 1. unfold now at 1.
  destruct (strftime_now B w1) as [stamp w2]. cbv beta iota.
  unfold bind at 1. unfold call at 1.
  destruct (write_text B _ _ w2) as [[[]|e] w3]; cbv beta iota.
  2:{ intros H. injection H as <- _ <-. now apply MR_write_raises. }
  unfold bind at 1. unfold print at 1. cbv beta iota.
  unfold bind at 1. unfold print at 1. cbv beta iota.
  unfold bind at 1.
  rewrite for_each_lines.
  2:{ intros k Hk.
      apply (Permutation_in _ (sort_by_perm (fun k => k)
                                 (map fst (organise (os_sep B) found)))).
      exact Hk. }
  cbv beta iota.
  unfold bind at 1. unfold print at 1. cbv beta iota.
  unfold bind at 1. unfold print at 1. cbv beta iota.
  unfold bind at 1. unfold print at 1. cbv beta iota.
  destruct (try_git_run (git_operations B commit_message (organise (os_sep B) found)) w3)
    as [He Hl].
  pose proof (git_operations_run (organise (os_sep B) found) w3) as HG.
  destruct (try_git _ w3) as [[r' w4] l'].
  unfold ended, logged in He, Hl. cbn [fst snd] in He, Hl.
  intros H. injection H as <- _ <-. subst r' l'.
  pose proof (@MR_git W B generate_html commit_message found stamp _ _ Hne HG) as HM.
  unfold prelude in HM. rewrite <- !app_assoc in HM. exact HM.
Qed.

Lemma main_run (w : W) :
  MainRun B generate_html commit_message
          (ended (main B generate_html commit_message w))
          (logged (main B generate_html commit_message w)).
Proof.
  destruct (main B generate_html commit_message w) as [[r w'] l] eqn:H.
  exact (main_cases w H).
Qed.

(** ** Reading the log *)

Lemma git_calls_app (l1 l2 : list event) :
  git_calls (l1 ++ l2) = git_calls l1 ++ git_calls l2.
Proof. apply flat_map_app. Qed.

Lemma files_written_app (l1 l2 : list event) :
  files_written (l1 ++ l2) = files_written l1 ++ files_written l2.
Proof. apply flat_map_app. Qed.

Lemma git_calls_in (c : git_cmd) (r : reply completed) (l : list event) :
  In (EvGit c r) l <-> In (c, r) (git_calls l).
Proof.
  unfold git_calls. rewrite in_flat_map. split.
  - intros H. exists (EvGit c r). split; [exact H|now left].
  - intros [[] [Hin Hx]]; cbn in Hx; try contradiction.
    destruct Hx as [E|[]]. now inversion E; subst.
Qed.

Lemma folder_lines_quiet (d : html_files) :
  git_calls (folder_lines d) = [] /\ files_written (folder_lines d) = [].
Proof.
  unfold folder_lines. induction (sort_by (fun k => k) (map fst d)); cbn; [now split|].
  exact IHl.
Qed.

Lemma prelude_calls (found : list rel_path) (stamp : string) :
  git_calls (prelude B generate_html found stamp) = [] /\
  files_written (prelude B generate_html found stamp) =
    [(join_dir B (current_dir B) "index.html",
      generate_html (organise (os_sep B) found) stamp)].
Proof.
  unfold prelude. rewrite !git_calls_app, !files_written_app.
  destruct (folder_lines_quiet (organise (os_sep B) found)) as [-> ->].
  now split.
Qed.

Lemma report_quiet (r : outcome unit) :
  git_calls (report r) = [] /\ files_written (report r) = [].
Proof. destruct r as [[]|[]]; now split. Qed.

Lemma GitRun_writes (d : html_files) (r : outcome unit) (l : list event) :
  GitRun commit_message d r l -> files_written l = [].
Proof. intros H; inversion H; subst; reflexivity. Qed.

(** The [git] commands of a run of the [try] body. *)
Lemma GitRun_calls (d : html_files) (r : outcome unit) (l : list event) :
  GitRun commit_message d r l ->
  (exists r1, git_calls l = [(GitAdd, r1)] /\ ~ succeeded r1) \/
  (exists r1 stamp r2,
      git_calls l = [(GitAdd, r1); (the_commit commit_message d stamp, r2)] /\
      succeeded r1 /\ ~ succeeded r2) \/
  (exists r1 stamp r2 r3,
      git_calls l = [(GitAdd, r1); (the_commit commit_message d stamp, r2);
                     (GitPush, r3)] /\
      succeeded r1 /\ succeeded r2).
Proof.
  assert (Hno : forall e, ~ succeeded (Raises e)).
  { intros e [c [E _]]. discriminate. }
  assert (Hbad : forall c, returncode c <> 0%Z -> ~ succeeded (Returns c)).
  { intros c Hc [c' [E Hc']]. inversion E; subst. contradiction. }
  assert (Hok : forall c, returncode c = 0%Z -> succeeded (Returns c)).
  { intros c Hc. now exists c. }
  intros H; inversion H; subst; cbn.
  - left. eexists. split; [reflexivity|apply Hno].
  - left. eexists. split; [reflexivity|now apply Hbad].
  - right; left. do 3 eexists. split; [reflexivity|]. split; [now apply Hok|apply Hno].
  - right; left. do 3 eexists. split; [reflexivity|].
    split; [now apply Hok|now apply Hbad].
  - right; left. do 3 eexists. split; [reflexivity|].
    split; [now apply Hok|now apply Hbad].
  - right; right. do 4 eexists. split; [reflexivity|]. split; now apply Hok.
  - right; right. do 4 eexists. split; [reflexivity|]. split; now apply Hok.
  - right; right. do 4 eexists. split; [reflexivity|]. split; now apply Hok.
Qed.

Lemma MainRun_calls (r : outcome unit) (l : list event) :
  MainRun B generate_html commit_message r l ->
  git_calls l = [] \/
  exists found stamp r0 l0,
    l = prelude B generate_html found stamp ++ l0 ++ report r0 /\
    r = handled r0 /\
    organise (os_sep B) found <> [] /\
    GitRun commit_message (organise (os_sep B) found) r0 l0 /\
    git_calls l = git_calls l0.
Proof.
  intros H; inversion H; subst; try (now left).
  right. do 4 eexists. repeat split; try eassumption.
  rewrite !git_calls_app.
  destruct (prelude_calls found stamp) as [-> _].
  destruct (report_quiet r0) as [-> _].
  now rewrite app_nil_r.
Qed.



(** What the calls before the [try] are. *)
Lemma prelude_in (found : list rel_path) (stamp : string) (ev : event) :
  In ev (prelude B generate_html found stamp) ->
  ev = EvRglob (Returns found) \/
  ev = EvNow stamp \/
  ev = EvWriteIndex (join_dir B (current_dir B) "index.html")
                    (generate_html (organise (os_sep B) found) stamp) (Returns tt) \/
  exists m, ev = EvPrint m /\ m <> MsgSuccess.
Proof.
  unfold prelude. rewrite !in_app_iff. unfold folder_lines. rewrite in_map_iff.
  cbn. intros [H|[[k [H _]]|H]].
  - repeat (destruct H as [H|H]); try contradiction; subst ev; auto;
      right; right; right; eexists; (split; [reflexivity|discriminate]).
  - subst ev. right; right; right. eexists. split; [reflexivity|discriminate].
  - repeat (destruct H as [H|H]); try contradiction; subst ev;
      right; right; right; eexists; (split; [reflexivity|discriminate]).
Qed.



End Runs.

(** ** The scan *)

Lemma organise_keys (sep : string) (found : list rel_path) :
  map fst (organise sep found) = map fst (fold_left (scan_step sep) found []).
Proof. unfold organise. rewrite map_map. reflexivity. Qed.

Lemma root_files_skipped (sep : string) (found : list rel_path) :
  Forall (fun p => path_parent p = []) found -> organise sep found = [].
Proof.
  unfold organise. intros H.
  assert (E : forall d, fold_left (scan_step sep) found d = d).
  { induction H as [|p r Hp _ IH]; intros d; cbn; [reflexivity|].
    rewrite <- (IH d) at 2. f_equal. unfold scan_step. rewrite Hp. cbn.
    now destruct (String.eqb (path_name p) "index.html"). }
  now rewrite E.
Qed.

Lemma entries_keys (d : html_files) (k : string) :
  Forall (fun kv => snd kv <> []) d ->
  In k (map fst d) <-> In k (map fst (entries d)).
Proof.
  intros Hne. induction Hne as [|[k' v] rest Hv _ IH]; cbn; [reflexivity|].
  rewrite map_app, in_app_iff, map_map. cbn. rewrite IH.
  split; intros [H|H]; try (now right).
  - left. destruct v as [|f v]; [contradiction|]. now left.
  - left. apply in_map_iff in H. now destruct H as [f [E _]].
Qed.

Lemma organise_entries (sep : string) (found : list rel_path) :
  Permutation (entries (organise sep found)) (flat_map (listed sep) found).
Proof. unfold organise. rewrite entries_sorted_perm, scan_entries. reflexivity. Qed.

Lemma organise_total (sep : string) (found : list rel_path) :
  total_files (organise sep found) = List.length (flat_map (listed sep) found).
Proof. rewrite total_files_entries. apply Permutation_length, organise_entries. Qed.

Lemma organise_shape (sep : string) (found : list rel_path) :
  NoDup (map fst (organise sep found)) /\
  Forall (fun kv => fst kv <> "." /\ snd kv <> [] /\ Sorted (key_le name) (snd kv))
         (organise sep found).
Proof.
  destruct (@scan_keys sep found [] (NoDup_nil _) (Forall_nil _)) as [Hnd Hall].
  split; [now rewrite organise_keys|].
  unfold organise. apply Forall_map. revert Hall. apply Forall_impl.
  intros [k v] [Hk Hv]; cbn in *. split; [exact Hk|].
  split; [|apply sort_by_sorted].
  intros E. apply Hv. apply length_zero_iff_nil.
  rewrite <- (sort_by_length name). now rewrite E.
Qed.

Lemma organise_folders (sep : string) (found : list rel_path) :
  Permutation (map fst (organise sep found)) (folders_of sep found).
Proof.
  destruct (organise_shape sep found) as [Hnd HF].
  apply NoDup_Permutation; [exact Hnd|apply NoDup_nodup|].
  intros k. unfold folders_of. rewrite nodup_In.
  rewrite entries_keys.
  - pose proof (organise_entries sep found) as HP.
    split; apply Permutation_in; [|symmetry]; now apply Permutation_map.
  - revert HF. apply Forall_impl. now intros kv [_ [H _]].
Qed.

(** ** [in] on strings *)

Lemma index_occurs (needle s : string) (n : nat) :
  String.index 0 needle s = Some n -> occurs needle s.
Proof. intros H. exists n. now apply index_correct1 with (n := 0%nat). Qed.

Lemma index_none (needle s : string) :
  needle <> "" -> String.index 0 needle s = None -> ~ occurs needle s.
Proof.
  intros Hne H [n Hn]. revert Hn. apply (index_correct3 0 n _ _ H Hne). lia.
Qed.

End DemoFacts.

(** * Further properties of the index generator *)

Module DemoProperties.
Import Demo DemoFacts.

(** X10.  [scan_html_files] lists every HTML file that [rglob] found below a
    subfolder exactly once, under its parent folder, with its file name and
    its path written with forward slashes; files directly in the scanned
    directory are left out whatever their name, an [index.html] in a
    subfolder is listed like any other file, and nothing else is listed.
    The number of files announced is the number of files so listed. *)
Theorem scan_lists_subfolder_files_once (sep : string) (found : list rel_path) :
  Permutation (entries (organise sep found)) (flat_map (listed sep) found) /\
  total_files (organise sep found) = List.length (flat_map (listed sep) found).
Proof. split; [apply organise_entries|apply organise_total]. Qed.

(** X11.  In the dict returned by [scan_html_files] no folder occurs twice,
    the folders are exactly the parent folders of the listed files, no
    folder is ["."], none has an empty list, and every folder's list is in
    ascending order of file name. *)
Theorem scan_folders_distinct_and_sorted (sep : string) (found : list rel_path) :
  NoDup (map fst (organise sep found)) /\
  Permutation (map fst (organise sep found)) (folders_of sep found) /\
  Forall (fun kv => fst kv <> "." /\ snd kv <> [] /\ Sorted (key_le name) (snd kv))
         (organise sep found).
Proof.
  destruct (organise_shape sep found) as [Hnd HF].
  split; [exact Hnd|]. split; [apply organise_folders|exact HF].
Qed.

Section MainProperties.

Context {W : Type} (B : Backend W).
Variable generate_html : html_files -> string -> string.
Variable commit_message : string -> nat -> nat -> string.

Local Abbreviation run := (main B generate_html commit_message).

(** X12.  [main] runs each [git] command at most once and in the order
    add, commit, push; a command is run only if the one before it returned
    code 0, so a command that raised or returned another code is the last. *)
Theorem git_commands_in_order (w : W) :
  git_calls (logged (run w)) = [] \/
  (exists r1, git_calls (logged (run w)) = [(GitAdd, r1)] /\ ~ succeeded r1) \/
  (exists r1 m r2,
      git_calls (logged (run w)) = [(GitAdd, r1); (GitCommit m, r2)] /\
      succeeded r1 /\ ~ succeeded r2) \/
  (exists r1 m r2 r3,
      git_calls (logged (run w)) = [(GitAdd, r1); (GitCommit m, r2); (GitPush, r3)] /\
      succeeded r1 /\ succeeded r2).
Proof.
  destruct (MainRun_calls (main_run B generate_html commit_message w))
    as [H|[found [stamp [r0 [l0 [_ [_ [_ [HG Hc]]]]]]]]]; [now left|].
  right. rewrite Hc.
  destruct (GitRun_calls HG) as [H|[[r1 [s [r2 H]]]|[r1 [s [r2 [r3 H]]]]]].
  - now left.
  - right; left. now exists r1, (commit_message s (total_files (organise (os_sep B) found))
                                     (List.length (organise (os_sep B) found))), r2.
  - right; right.
    now exists r1, (commit_message s (total_files (organise (os_sep B) found))
                      (List.length (organise (os_sep B) found))), r2, r3.
Qed.

(** X13.  When every HTML file found lies directly in the scanned
    directory, [main] prints that there is nothing to index and returns:
    it writes no file and runs no [git] command. *)
Theorem no_subfolder_files_nothing_done (w : W) (found : list rel_path) :
  In (EvRglob (Returns found)) (logged (run w)) ->
  Forall (fun p => path_parent p = []) found ->
  ended (run w) = Ok tt /\
  logged (run w) =
    [EvPrint (MsgScanning (current_dir B)); EvRglob (Returns found); EvPrint MsgNoFiles].
Proof.
  intros Hin Hroot.
  pose proof (root_files_skipped (os_sep B) Hroot) as Hnone.
  pose proof (main_run B generate_html commit_message w) as HM.
  destruct HM as [e|found0 H0|found0 stamp e Hne|found0 stamp r0 l0 Hne HG].
  - cbn in Hin. destruct Hin as [H|[H|[]]]; discriminate.
  - cbn in Hin. destruct Hin as [H|[H|[H|[]]]]; try discriminate.
    inversion H; subst. now split.
  - exfalso. cbn in Hin.
    repeat (destruct Hin as [Hin|Hin]); try discriminate; try contradiction.
    inversion Hin; subst. contradiction.
  - exfalso. rewrite !in_app_iff in Hin. destruct Hin as [Hin|[Hin|Hin]].
    + apply prelude_in in Hin.
      destruct Hin as [H|[H|[H|[m [H _]]]]]; try discriminate.
      inversion H; subst. contradiction.
    + inversion HG; subst; cbn in Hin;
        repeat (destruct Hin as [Hin|Hin]); try discriminate; try contradiction.
    + destruct r0 as [[]|[]]; cbn in Hin;
        repeat (destruct Hin as [Hin|Hin]); try discriminate; try contradiction.
Qed.

(** X14.  Before [main] runs any [git] command it has written the page:
    the one file it writes is [index.html] in the scanned directory, written
    once, with the text [generate_html] makes of the scan result, and no
    [git] command comes before that write. *)
Theorem index_written_before_any_git (w : W) (c : git_cmd) (r : reply completed) :
  In (EvGit c r) (logged (run w)) ->
  exists found stamp pre post,
    logged (run w) =
      pre ++ EvWriteIndex (join_dir B (current_dir B) "index.html")
                          (generate_html (organise (os_sep B) found) stamp)
                          (Returns tt) :: post /\
    In (EvRglob (Returns found)) pre /\
    git_calls pre = [] /\
    files_written (logged (run w)) =
      [(join_dir B (current_dir B) "index.html",
        generate_html (organise (os_sep B) found) stamp)].
Proof.
  intros Hin. apply git_calls_in in Hin.
  destruct (MainRun_calls (main_run B generate_html commit_message w))
    as [H|[found [stamp [r0 [l0 [Hl [_ [_ [HG _]]]]]]]]].
  { rewrite H in Hin. contradiction. }
  exists found, stamp.
  exists [EvPrint (MsgScanning (current_dir B)); EvRglob (Returns found);
          EvPrint (MsgFound (total_files (organise (os_sep B) found))
                            (List.length (organise (os_sep B) found)));
          EvNow stamp].
  eexists. split; [rewrite Hl; unfold prelude; cbn; reflexivity|].
  split; [cbn; auto|]. split; [reflexivity|].
  rewrite Hl, !files_written_app.
  destruct (prelude_calls B generate_html found stamp) as [_ ->].
  rewrite (GitRun_writes HG). destruct (report_quiet r0) as [_ ->]. reflexivity.
Qed.

(** X15.  An exception raised by a [git] command ends the [git] work: every
    command before it succeeded, nothing is run after it, and [main] reports
    it and returns normally ([FileNotFoundError] as a missing [git], any
    other [Exception] with its text); only an exception outside [Exception],
    such as [KeyboardInterrupt], leaves [main]. *)
Theorem git_failure_is_reported (w : W) (c : git_cmd) (e : exn) :
  In (EvGit c (Raises e)) (logged (run w)) ->
  exists pre,
    logged (run w) = pre ++ EvGit c (Raises e) :: report (Raise e) /\
    ended (run w) = handled (Raise e) /\
    Forall succeeded (map snd (git_calls pre)).
Proof.
  intros Hin. apply git_calls_in in Hin.
  destruct (MainRun_calls (main_run B generate_html commit_message w))
    as [H|[found [stamp [r0 [l0 [Hl [Hr [_ [HG Hc]]]]]]]]].
  { rewrite H in Hin. contradiction. }
  rewrite Hc in Hin. rewrite Hl, Hr. clear Hl Hr Hc.
  assert (Hok : forall c0, returncode c0 = 0%Z -> succeeded (Returns c0)).
  { intros c0 H0. now exists c0. }
  destruct (prelude_calls B generate_html found stamp) as [Hp _].
  inversion HG; subst; cbn in Hin;
    repeat (destruct Hin as [Hin|Hin]); try discriminate; try contradiction;
    inversion Hin; subst.
  - exists (prelude B generate_html found stamp ++ [EvPrint MsgAdding]).
    rewrite <- !app_assoc. split; [reflexivity|]. split; [reflexivity|].
    rewrite git_calls_app, Hp. constructor.
  - exists (prelude B generate_html found stamp ++
            committing c1 stamp0).
    rewrite <- !app_assoc. split; [reflexivity|]. split; [reflexivity|].
    rewrite git_calls_app, Hp. cbn. repeat constructor. now apply Hok.
  - exists (prelude B generate_html found stamp ++
            committed commit_message (organise (os_sep B) found) c1 stamp0 c2).
    rewrite <- !app_assoc. split; [reflexivity|]. split; [reflexivity|].
    rewrite git_calls_app, Hp. cbn. repeat constructor; now apply Hok.
Qed.


(** X17.  [main] prints its success banner exactly when all three [git]
    commands were run and each returned code 0. *)
Theorem success_banner_iff_all_pushed (w : W) :
  In (EvPrint MsgSuccess) (logged (run w)) <->
  exists c1 m c2 c3,
    git_calls (logged (run w)) =
      [(GitAdd, Returns c1); (GitCommit m, Returns c2); (GitPush, Returns c3)] /\
    returncode c1 = 0%Z /\ returncode c2 = 0%Z /\ returncode c3 = 0%Z.
Proof.
  pose proof (main_run B generate_html commit_message w) as HM.
  destruct HM as [e0|found0 H0|found0 stamp e0 Hne|found0 stamp r0 l0 Hne HG].
  1-3: split; [intros Hin; cbn in Hin;
                 repeat (destruct Hin as [Hin|Hin]); try discriminate; contradiction
               |intros [c1 [m [c2 [c3 [H _]]]]]; discriminate].
  rewrite !git_calls_app.
  destruct (prelude_calls B generate_html found0 stamp) as [-> _].
  destruct (report_quiet r0) as [-> _]. rewrite app_nil_r. cbn [app].
  split.
  - intros Hin. rewrite !in_app_iff in Hin. destruct Hin as [Hin|[Hin|Hin]].
    + apply prelude_in in Hin.
      destruct Hin as [H|[H|[H|[m [H Hm]]]]]; try discriminate.
      inversion H; subst. contradiction.
    + inversion HG; subst; cbn in Hin;
        repeat (destruct Hin as [Hin|Hin]); try discriminate; try contradiction.
      do 4 eexists. split; [reflexivity|]. now repeat split.
    + destruct r0 as [[]|[]]; cbn in Hin;
        repeat (destruct Hin as [Hin|Hin]); try discriminate; try contradiction.
  - intros [c1 [m [c2 [c3 [H [H1 [H2 H3]]]]]]].
    rewrite !in_app_iff. right; left.
    inversion HG; subst; cbn in H; try discriminate; inversion H; subst;
      try contradiction.
    cbn. auto 20.
Qed.

(** X18.  A [git commit] that returns a code other than 0 ends [main]
    normally and without a push: when its output contains "nothing to
    commit" the run ends on the note that there is nothing to commit,
    otherwise on the error message with the command's [stderr]. *)
Theorem failed_commit_never_pushes (w : W) (m : string) (c2 : completed) :
  In (EvGit (GitCommit m) (Returns c2)) (logged (run w)) ->
  returncode c2 <> 0%Z ->
  ended (run w) = Ok tt /\
  exists pre msg,
    logged (run w) = pre ++ [EvGit (GitCommit m) (Returns c2); EvPrint msg] /\
    (occurs "nothing to commit" (stdout c2) -> msg = MsgNothingToCommit) /\
    (~ occurs "nothing to commit" (stdout c2) -> msg = MsgCommitFailed (stderr c2)).
Proof.
  intros Hin Hrc. apply git_calls_in in Hin.
  destruct (MainRun_calls (main_run B generate_html commit_message w))
    as [H|[found [stamp [r0 [l0 [Hl [Hr [_ [HG Hc]]]]]]]]].
  { rewrite H in Hin. contradiction. }
  rewrite Hc in Hin. rewrite Hl, Hr. clear Hl Hr Hc.
  inversion HG; subst; cbn in Hin;
    repeat (destruct Hin as [Hin|Hin]); try discriminate; try contradiction;
    inversion Hin; subst; try contradiction.
  - split; [reflexivity|].
    exists (prelude B generate_html found stamp ++ committing c1 stamp0), MsgNothingToCommit.
    rewrite <- !app_assoc. split; [reflexivity|]. split; [reflexivity|].
    intros Hno. exfalso. apply Hno. eapply index_occurs. eassumption.
  - split; [reflexivity|].
    exists (prelude B generate_html found stamp ++ committing c1 stamp0),
           (MsgCommitFailed (stderr c2)).
    rewrite <- !app_assoc. split; [reflexivity|]. split; [|reflexivity].
    intros Hocc. exfalso. revert Hocc. apply index_none; [discriminate|assumption].
Qed.

(** X19.  The commit message is made from a clock reading of its own and
    the two totals that the "Found" line printed: the number of HTML files
    found below subfolders and the number of folders that hold them. *)
Theorem totals_in_commit_message (w : W) (m : string) (r : reply completed) :
  In (EvGit (GitCommit m) r) (logged (run w)) ->
  exists found stamp pre post,
    logged (run w) = pre ++ EvNow stamp :: EvGit (GitCommit m) r :: post /\
    In (EvRglob (Returns found)) pre /\
    In (EvPrint (MsgFound (List.length (flat_map (listed (os_sep B)) found))
                          (List.length (folders_of (os_sep B) found)))) pre /\
    m = commit_message stamp (List.length (flat_map (listed (os_sep B)) found))
                       (List.length (folders_of (os_sep B) found)).
Proof.
  intros Hin. apply git_calls_in in Hin.
  destruct (MainRun_calls (main_run B generate_html commit_message w))
    as [H|[found [stamp [r0 [l0 [Hl [Hr [_ [HG Hc]]]]]]]]].
  { rewrite H in Hin. contradiction. }
  rewrite Hc in Hin. rewrite Hl. clear Hl Hr Hc.
  assert (Hpre : forall tail,
             In (EvRglob (Returns found)) (prelude B generate_html found stamp ++ tail) /\
             In (EvPrint (MsgFound (List.length (flat_map (listed (os_sep B)) found))
                                   (List.length (folders_of (os_sep B) found))))
                (prelude B generate_html found stamp ++ tail)).
  { intros tail. rewrite <- organise_total.
    rewrite <- (Permutation_length (organise_folders (os_sep B) found)), length_map.
    unfold prelude. cbn. auto. }
  assert (Hm : forall s, the_commit commit_message (organise (os_sep B) found) s =
                         GitCommit (commit_message s
                                      (List.length (flat_map (listed (os_sep B)) found))
                                      (List.length (folders_of (os_sep B) found)))).
  { intros s. unfold the_commit. rewrite organise_total.
    rewrite <- (Permutation_length (organise_folders (os_sep B) found)), length_map.
    reflexivity. }
  exists found.
  inversion HG; subst; cbn in Hin;
    repeat (destruct Hin as [Hin|Hin]); try discriminate; try contradiction;
    rewrite Hm in Hin; inversion Hin; subst;
    exists stamp0, (prelude B generate_html found stamp ++
                    added c1 ++ [EvPrint MsgCommitting]);
    eexists; (split; [unfold committed, committing; rewrite Hm, <- !app_assoc;
                      cbn; reflexivity|]);
    (split; [apply Hpre|split; [apply Hpre|reflexivity]]).
Qed.

End MainProperties.

(** ** The properties at scripted runs *)

Lemma no_subfolder_files_nothing_done_at_flat_site :
  ended (Script.run Script.flat_site) = Ok tt /\
  logged (Script.run Script.flat_site) =
    [EvPrint (MsgScanning "/site");
     EvRglob (Returns [["index.html"]; ["about.html"]]); EvPrint MsgNoFiles].
Proof.
  apply (@no_subfolder_files_nothing_done
           Script.World (Script.backend Script.flat_site) Script.page Script.note
           (Script.start Script.flat_site) [["index.html"]; ["about.html"]]).
  - vm_compute. right. left. reflexivity.
  - repeat constructor.
Defined.

Lemma index_written_before_any_git_at_healthy :
  exists found stamp pre post,
    logged (Script.run Script.healthy) =
      pre ++ EvWriteIndex "/site/index.html"
                          (Script.page (organise "/" found) stamp) (Returns tt) :: post /\
    In (EvRglob (Returns found)) pre /\
    git_calls pre = [] /\
    files_written (logged (Script.run Script.healthy)) =
      [("/site/index.html", Script.page (organise "/" found) stamp)].
Proof.
  apply (@index_written_before_any_git
           Script.World (Script.backend Script.healthy) Script.page Script.note
           (Script.start Script.healthy) GitPush (Script.done "")).
  vm_compute. do 21 right. left. reflexivity.
Defined.

Lemma git_failure_is_reported_at_no_git :
  exists pre,
    logged (Script.run Script.no_git) =
      pre ++ [EvGit GitAdd (Raises (FileNotFoundError "git")); EvPrint MsgGitMissing] /\
    ended (Script.run Script.no_git) = Ok tt /\
    Forall succeeded (map snd (git_calls pre)).
Proof.
  apply (@git_failure_is_reported
           Script.World (Script.backend Script.no_git) Script.page Script.note
           (Script.start Script.no_git) GitAdd (FileNotFoundError "git")).
  vm_compute. do 13 right. left. reflexivity.
Defined.


Lemma failed_commit_never_pushes_at_clean_tree :
  ended (Script.run Script.clean_tree) = Ok tt /\
  exists pre msg,
    logged (Script.run Script.clean_tree) =
      pre ++ [EvGit (GitCommit "2025-01-01 00:00:00")
                    (Returns (MkCompleted 1
                                "On branch main: nothing to commit, working tree clean" ""));
              EvPrint msg] /\
    (occurs "nothing to commit"
            (stdout (MkCompleted 1
                       "On branch main: nothing to commit, working tree clean" "")) ->
     msg = MsgNothingToCommit) /\
    (~ occurs "nothing to commit"
         (stdout (MkCompleted 1
                    "On branch main: nothing to commit, working tree clean" "")) ->
     msg = MsgCommitFailed
             (stderr (MkCompleted 1
                        "On branch main: nothing to commit, working tree clean" ""))).
Proof.
  apply (@failed_commit_never_pushes
           Script.World (Script.backend Script.clean_tree) Script.page Script.note
           (Script.start Script.clean_tree)).
  - vm_compute. do 17 right. left. reflexivity.
  - discriminate.
Defined.

Lemma totals_in_commit_message_at_healthy :
  exists found stamp pre post,
    logged (Script.run Script.healthy) =
      pre ++ EvNow stamp :: EvGit (GitCommit "2025-01-01 00:00:00")
                                  (Script.done "1 file changed") :: post /\
    In (EvRglob (Returns found)) pre /\
    In (EvPrint (MsgFound (List.length (flat_map (listed "/") found))
                          (List.length (folders_of "/" found)))) pre /\
    "2025-01-01 00:00:00" =
      Script.note stamp (List.length (flat_map (listed "/") found))
                  (List.length (folders_of "/" found)).
Proof.
  apply (@totals_in_commit_message
           Script.World (Script.backend Script.healthy) Script.page Script.note
           (Script.start Script.healthy)).
  vm_compute. do 17 right. left. reflexivity.
Defined.

End DemoProperties.
